(** * BME280 driver: calibration decoding and fixed-point compensation

    A shallow embedding of the sensor core of [src/bme280.c] and of its
    duplicate inside [src/bpbme280.c]: the calibration loader
    ([read_calibration] / [bme280_read_calib]), the register transport it
    sits on ([i2c_read_regs]) and the three datasheet compensation
    routines for temperature, pressure and humidity; then the rest of
    the drivers: the single-register transfers, the configuration, the
    sample read, the status poll, and [main] of [src/bme280.c] as a
    function from a machine (open, ioctl, the device) to an exit status
    and a list of actions.

    Conventions of the embedding.
    - C integers are mathematical integers [Z] kept inside their type by an
      explicit two's-complement wrap ([wrap32], [wrap64], ...).  Signed
      overflow and shifts of negative values therefore behave as on the
      target (gcc on ARM/x86): products wrap, [>>] is arithmetic.
    - [uint8_t] buffers are [list byte]; [buf[i]] is read with [at_].
    - [double] is the kernel's binary64 ([PrimFloat.float]); an integer is
      converted with round-to-nearest-even, as the C conversion does.
    - [bme280_calib_t *c] is threaded explicitly: every routine returns the
      struct it leaves behind next to its C return value.
    - The one operation without a value is the 64-bit division, when the
      divisor is zero or the quotient is not an [int64_t] (INT64_MIN / -1);
      the routine that divides returns an [option] so that such a run
      shows. *)

From Stdlib Require Import ZArith Lia List Bool PrimFloat FloatOps SpecFloat FloatAxioms.
From Stdlib Require String.
Import String.StringSyntax.
Delimit Scope string_scope with string.
From coqutil Require Import Byte Word.LittleEndianList.
Import ListNotations.

Local Open Scope Z_scope.

(** ** Machine integers *)

Definition wrap_signed (w : Z) (z : Z) : Z := (z + 2 ^ (w - 1)) mod 2 ^ w - 2 ^ (w - 1).
Definition wrap_unsigned (w : Z) (z : Z) : Z := z mod 2 ^ w.

Definition wrap8 : Z -> Z := wrap_signed 8.      (* (int8_t)  *)
Definition wrap16 : Z -> Z := wrap_signed 16.    (* (int16_t) *)
Definition wrap32 : Z -> Z := wrap_signed 32.    (* (int32_t) *)
Definition wrap64 : Z -> Z := wrap_signed 64.    (* (int64_t) *)
Definition wrapu16 : Z -> Z := wrap_unsigned 16. (* (uint16_t) *)

Definition in_int8 (z : Z) : Prop := - 2 ^ 7 <= z < 2 ^ 7.
Definition in_int16 (z : Z) : Prop := - 2 ^ 15 <= z < 2 ^ 15.
Definition in_int32 (z : Z) : Prop := - 2 ^ 31 <= z < 2 ^ 31.
Definition in_int64 (z : Z) : Prop := - 2 ^ 63 <= z < 2 ^ 63.
Definition in_uint8 (z : Z) : Prop := 0 <= z < 2 ^ 8.
Definition in_uint16 (z : Z) : Prop := 0 <= z < 2 ^ 16.

(** [int32_t] arithmetic. *)
Module I32.
Definition add (a b : Z) : Z := wrap32 (a + b).
Definition sub (a b : Z) : Z := wrap32 (a - b).
Definition mul (a b : Z) : Z := wrap32 (a * b).
Definition shl (a n : Z) : Z := wrap32 (Z.shiftl a n).
Definition sar (a n : Z) : Z := Z.shiftr a n.
End I32.

(** [int64_t] arithmetic.  [div] is C's truncating division; it has no
    value for a zero divisor, nor for INT64_MIN / -1, whose quotient is
    not an [int64_t]: the behaviour is undefined, and the division
    instruction of x86-64 raises SIGFPE in both cases. *)
Module I64.
Definition add (a b : Z) : Z := wrap64 (a + b).
Definition sub (a b : Z) : Z := wrap64 (a - b).
Definition mul (a b : Z) : Z := wrap64 (a * b).
Definition shl (a n : Z) : Z := wrap64 (Z.shiftl a n).
Definition sar (a n : Z) : Z := Z.shiftr a n.
Definition div (a b : Z) : option Z :=
  if (b =? 0) || ((a =? - 2 ^ 63) && (b =? -1)) then None
  else Some (Z.quot a b).
End I64.

Declare Scope i32_scope.
Delimit Scope i32_scope with i32.
Arguments I32.add (a b)%_i32.
Arguments I32.sub (a b)%_i32.
Arguments I32.mul (a b)%_i32.
Arguments I32.shl a%_i32 n%_Z.
Arguments I32.sar a%_i32 n%_Z.
Infix "+" := I32.add : i32_scope.
Infix "-" := I32.sub : i32_scope.
Infix "*" := I32.mul : i32_scope.
Infix "<<" := I32.shl (at level 55, left associativity) : i32_scope.
Infix ">>" := I32.sar (at level 55, left associativity) : i32_scope.

Declare Scope i64_scope.
Delimit Scope i64_scope with i64.
Arguments I64.add (a b)%_i64.
Arguments I64.sub (a b)%_i64.
Arguments I64.mul (a b)%_i64.
Arguments I64.shl a%_i64 n%_Z.
Arguments I64.sar a%_i64 n%_Z.
Infix "+" := I64.add : i64_scope.
Infix "-" := I64.sub : i64_scope.
Infix "*" := I64.mul : i64_scope.
Infix "<<" := I64.shl (at level 55, left associativity) : i64_scope.
Infix ">>" := I64.sar (at level 55, left associativity) : i64_scope.

(** ** Doubles *)

Definition double : Set := PrimFloat.float.

(** [(double)z]: the binary64 nearest to [z], ties to even. *)
Definition double_of_Z (z : Z) : double :=
  SF2Prim (binary_normalize prec emax z 0 false).

(** [(double)n / d] for an integer [n] and a double [d]. *)
Definition double_div (n : Z) (d : double) : double := (double_of_Z n / d)%float.
Arguments double_div n%_Z d%_float.

(** [x <= y] on doubles. *)
Definition dle (x y : double) : Prop := PrimFloat.leb x y = true.
Arguments dle (x y)%_float.

(** ** The calibration struct *)

Record bme280_calib_t : Set := mk_calib {
  (* Temperature *)
  dig_T1 : Z; (* uint16_t *)
  dig_T2 : Z; (* int16_t *)
  dig_T3 : Z; (* int16_t *)
  (* Pressure *)
  dig_P1 : Z; (* uint16_t *)
  dig_P2 : Z; (* int16_t *)
  dig_P3 : Z; (* int16_t *)
  dig_P4 : Z; (* int16_t *)
  dig_P5 : Z; (* int16_t *)
  dig_P6 : Z; (* int16_t *)
  dig_P7 : Z; (* int16_t *)
  dig_P8 : Z; (* int16_t *)
  dig_P9 : Z; (* int16_t *)
  (* Humidity *)
  dig_H1 : Z; (* uint8_t *)
  dig_H2 : Z; (* int16_t *)
  dig_H3 : Z; (* uint8_t *)
  dig_H4 : Z; (* int16_t *)
  dig_H5 : Z; (* int16_t *)
  dig_H6 : Z; (* int8_t *)
  (* t_fine used in compensation *)
  t_fine : Z  (* int32_t *)
}.

(** [c->t_fine = v] *)
Definition set_t_fine (c : bme280_calib_t) (v : Z) : bme280_calib_t :=
  mk_calib (dig_T1 c) (dig_T2 c) (dig_T3 c)
           (dig_P1 c) (dig_P2 c) (dig_P3 c) (dig_P4 c) (dig_P5 c)
           (dig_P6 c) (dig_P7 c) (dig_P8 c) (dig_P9 c)
           (dig_H1 c) (dig_H2 c) (dig_H3 c) (dig_H4 c) (dig_H5 c) (dig_H6 c)
           v.

(** Every field holds a value of its C type. *)
Record calib_wf (c : bme280_calib_t) : Prop := {
  wf_T1 : in_uint16 (dig_T1 c);
  wf_T2 : in_int16 (dig_T2 c);
  wf_T3 : in_int16 (dig_T3 c);
  wf_P1 : in_uint16 (dig_P1 c);
  wf_P2 : in_int16 (dig_P2 c);
  wf_P3 : in_int16 (dig_P3 c);
  wf_P4 : in_int16 (dig_P4 c);
  wf_P5 : in_int16 (dig_P5 c);
  wf_P6 : in_int16 (dig_P6 c);
  wf_P7 : in_int16 (dig_P7 c);
  wf_P8 : in_int16 (dig_P8 c);
  wf_P9 : in_int16 (dig_P9 c);
  wf_H1 : in_uint8 (dig_H1 c);
  wf_H2 : in_int16 (dig_H2 c);
  wf_H3 : in_uint8 (dig_H3 c);
  wf_H4 : in_int16 (dig_H4 c);
  wf_H5 : in_int16 (dig_H5 c);
  wf_H6 : in_int8 (dig_H6 c);
  wf_t_fine : in_int32 (t_fine c)
}.

(** The coefficients, without [t_fine]. *)
Definition coefficients (c : bme280_calib_t) : list Z :=
  [dig_T1 c; dig_T2 c; dig_T3 c;
   dig_P1 c; dig_P2 c; dig_P3 c; dig_P4 c; dig_P5 c; dig_P6 c;
   dig_P7 c; dig_P8 c; dig_P9 c;
   dig_H1 c; dig_H2 c; dig_H3 c; dig_H4 c; dig_H5 c; dig_H6 c].

(** ** Buffers and the device *)

(** [buf[i]], promoted to [int]. *)
Definition at_ (buf : list byte) (i : nat) : Z := byte.unsigned (nth i buf Byte.x00).

(** The I2C character device behind the descriptor [fd].  [dev_write]
    is write(2): the bytes offered, the count it returns (or -1).
    [dev_read] is read(2) asked for [len] bytes: [None] when it returns
    -1, otherwise the bytes the device hands over. *)
Record i2c_dev (bus : Type) : Type := mk_i2c_dev {
  dev_write : bus -> list byte -> Z * bus;
  dev_read : bus -> nat -> option (list byte) * bus
}.
Arguments dev_write {bus} _ _ _.
Arguments dev_read {bus} _ _ _.
Arguments mk_i2c_dev {bus} _ _.

(** [read(fd, buf, len)]: never more than [len] bytes are taken; they
    land at the front of [buf] and their number is returned. *)
Definition sys_read {bus} (dev : i2c_dev bus) (fd : bus) (buf : list byte) (len : nat)
  : Z * list byte * bus :=
  match dev_read dev fd len with
  | (None, fd) => (-1, buf, fd)
  | (Some bs, fd) =>
      let got := firstn len bs in
      (Z.of_nat (length got), got ++ skipn (length got) buf, fd)
  end.

(** An automatic array before anything is stored in it.  Its contents
    are indeterminate in C; no routine below reads them. *)
Definition uninit (n : nat) : list byte := repeat Byte.x00 n.

(* Calibration regions *)
Definition CALIB00 : byte := Byte.x88. (* 0x88..0xA1 (T & P + H1 at 0xA1) *)
Definition CALIB26 : byte := Byte.xe1. (* 0xE1..0xE7 (H2..H6) *)

(* Registers *)
Definition BME280_CHIP_ID : Z := 0x60.
Definition REG_ID : byte := Byte.xd0.
Definition REG_CTRL_HUM : byte := Byte.xf2.
Definition REG_STATUS : byte := Byte.xf3.
Definition REG_CTRL_MEAS : byte := Byte.xf4.
Definition REG_CONFIG : byte := Byte.xf5.
Definition REG_PRESS_MSB : byte := Byte.xf7. (* F7..F9 *)

(** The machine [main] runs on: the device, open(2) on a path ([None]
    when it returns a negative descriptor), ioctl(fd, I2C_SLAVE, addr)
    with the value it returns, and strtol(s, NULL, 0). *)
Record i2c_host (bus : Type) : Type := mk_i2c_host {
  host_dev : i2c_dev bus;
  host_open : String.string -> option bus;
  host_ioctl : bus -> Z -> Z * bus;
  host_strtol : String.string -> Z
}.
Arguments host_dev {bus} _.
Arguments host_open {bus} _ _.
Arguments host_ioctl {bus} _ _ _.
Arguments host_strtol {bus} _ _.
Arguments mk_i2c_host {bus} _ _ _ _.

(** What a run prints, by message, with the values its format takes
    (the text of strerror(errno) is left out). *)
Inductive message : Type :=
| Failed_to_open (dev : String.string)
| Failed_to_set_address (addr : Z)
| Failed_to_read_chip_id
| Unexpected_chip_id (id : Z)
| Detected (id addr : Z) (dev : String.string)
| Failed_to_read_calibration
| Failed_to_configure
| Failed_to_read_raw
| Temperature (v : double)
| Pressure (v : double)
| Humidity (v : double).

(** What a run does besides talking to the device, in order. *)
Inductive action : Type :=
| Stderr (m : message)
| Stdout (m : message)
| Usleep (us : Z)
| Close.

(** ** src/bme280.c *)

Module Bme280.

Section Transport.
Context {bus : Type} (dev : i2c_dev bus).

Definition i2c_read_regs (fd : bus) (start_reg : byte) (buf : list byte) (len : nat)
  : Z * list byte * bus :=
  let '(w, fd) := dev_write dev fd [start_reg] in
  if negb (w =? 1) then (-1, buf, fd) else
  let '(r, buf, fd) := sys_read dev fd buf len in
  ((if r =? Z.of_nat len then 0 else -1), buf, fd).

(* Little-endian helpers *)
Definition U16_LE (p : list byte) (i : nat) : Z :=
  wrapu16 (Z.lor (at_ p i) (wrapu16 (at_ p (i + 1)) << 8)%i32).

Definition S16_LE (p : list byte) (i : nat) : Z :=
  wrap16 (Z.lor (at_ p i) (wrap16 (at_ p (i + 1)) << 8)%i32).

(** The assignments to [*c] that follow the two reads. *)
Definition decode_calibration (buf1 buf2 : list byte) (c : bme280_calib_t)
  : bme280_calib_t :=
  (* H4: E4 << 4 | (E5 & 0x0F) *)
  (* H5: E6 << 4 | (E5 >> 4) *)
  let h4 := wrap16 (Z.lor (wrap16 (at_ buf2 3) << 4)%i32 (Z.land (at_ buf2 4) 15)) in
  let h5 := wrap16 (Z.lor (wrap16 (at_ buf2 5) << 4)%i32 (at_ buf2 4 >> 4)%i32) in
  {| dig_T1 := U16_LE buf1 0;
     dig_T2 := S16_LE buf1 2;
     dig_T3 := S16_LE buf1 4;
     dig_P1 := U16_LE buf1 6;
     dig_P2 := S16_LE buf1 8;
     dig_P3 := S16_LE buf1 10;
     dig_P4 := S16_LE buf1 12;
     dig_P5 := S16_LE buf1 14;
     dig_P6 := S16_LE buf1 16;
     dig_P7 := S16_LE buf1 18;
     dig_P8 := S16_LE buf1 20;
     dig_P9 := S16_LE buf1 22;
     dig_H1 := at_ buf1 24;   (* 0xA1 *)
     dig_H2 := S16_LE buf2 0; (* E1, E2 *)
     dig_H3 := at_ buf2 2;    (* E3 *)
     dig_H4 := h4;
     dig_H5 := h5;
     dig_H6 := wrap8 (at_ buf2 6); (* E7 *)
     t_fine := t_fine c |}.

Definition read_calibration (fd : bus) (c : bme280_calib_t) : Z * bme280_calib_t * bus :=
  let buf1 := uninit 26 in (* 0x88..0xA1 inclusive is 26 bytes *)
  let buf2 := uninit 7 in  (* 0xE1..0xE7 is 7 bytes *)
  let '(r, buf1, fd) := i2c_read_regs fd CALIB00 buf1 26 in
  if r <? 0 then (-1, c, fd) else
  let '(r, buf2, fd) := i2c_read_regs fd CALIB26 buf2 7 in
  if r <? 0 then (-1, c, fd) else
  (0, decode_calibration buf1 buf2 c, fd).

Definition i2c_write_reg (fd : bus) (reg val : byte) : Z * bus :=
  let buf := [reg; val] in
  let '(w, fd) := dev_write dev fd buf in
  if negb (w =? 2) then (-1, fd) else
  (0, fd).

Definition i2c_write (fd : bus) (buf : list byte) : Z * bus :=
  let '(w, fd) := dev_write dev fd buf in
  ((if w =? Z.of_nat (length buf) then 0 else -1), fd).

(** [val] is the byte [*val] holds on entry. *)
Definition i2c_read_reg (fd : bus) (reg : byte) (val : byte) : Z * byte * bus :=
  let '(w, fd) := dev_write dev fd [reg] in
  if negb (w =? 1) then (-1, val, fd) else
  let '(r, buf, fd) := sys_read dev fd [val] 1 in
  if negb (r =? 1) then (-1, nth 0 buf val, fd) else
  (0, nth 0 buf val, fd).

Definition configure_bme280 (fd : bus) : Z * bus :=
  (* Humidity oversampling x1 *)
  let '(r, fd) := i2c_write_reg fd REG_CTRL_HUM Byte.x01 in
  if r <? 0 then (-1, fd) else
  (* ctrl_meas: temp oversampling x1, press oversampling x1, mode = normal *)
  let '(r, fd) := i2c_write_reg fd REG_CTRL_MEAS Byte.x27 in
  if r <? 0 then (-1, fd) else
  (* config: standby 500ms, filter off, spi3w off *)
  let '(r, fd) := i2c_write_reg fd REG_CONFIG Byte.x80 in
  if r <? 0 then (-1, fd) else
  (0, fd).

(** The assignments to [*adc_T], [*adc_P], [*adc_H] that follow the
    read, as the triple (adc_T, adc_P, adc_H). *)
Definition decode_raw (data : list byte) : Z * Z * Z :=
  let adc_P := Z.lor (Z.lor (at_ data 0 << 12)%i32 (at_ data 1 << 4)%i32)
                     (at_ data 2 >> 4)%i32 in
  let adc_T := Z.lor (Z.lor (at_ data 3 << 12)%i32 (at_ data 4 << 4)%i32)
                     (at_ data 5 >> 4)%i32 in
  let adc_H := Z.lor (at_ data 6 << 8)%i32 (at_ data 7) in
  (adc_T, adc_P, adc_H).

(** [adc] is what the three out-parameters hold on entry. *)
Definition read_raw_data (fd : bus) (adc : Z * Z * Z) : Z * (Z * Z * Z) * bus :=
  let data := uninit 8 in (* F7..FE: press(3), temp(3), hum(2) *)
  let '(r, data, fd) := i2c_read_regs fd REG_PRESS_MSB data 8 in
  if r <? 0 then (-1, adc, fd) else
  (0, decode_raw data, fd).

(** The loop of [main] that polls STATUS[3], with [n] rounds left; the
    actions are its [usleep] calls. *)
Fixpoint poll_status (n : nat) (fd : bus) : list action * bus :=
  match n with
  | O => ([], fd)
  | S n =>
      let st := Byte.x00 in
      let '(r, st, fd) := i2c_read_reg fd REG_STATUS st in
      if (r =? 0) && (Z.land (byte.unsigned st) 8 =? 0) then ([], fd) (* measuring == 0 *)
      else
        let '(acts, fd) := poll_status n fd in
        (Usleep 20000 :: acts, fd)
  end.

End Transport.

(* Compensation formulas from BME280 datasheet (integer fixed-point style) *)

(** Each routine is cut where the C code converts to [double]: the
    integer computation is a function of its own ([compensate_T_fixed],
    [compensate_P_terms] and [compensate_P_fixed], [compensate_H_raw] and
    [compensate_H_fixed]); the routine adds the conversion and the
    division by the scale. *)

(** The centi-degree integer [(c->t_fine * 5 + 128) >> 8], and the struct
    after [c->t_fine = var1 + var2]. *)
Definition compensate_T_fixed (adc_T : Z) (c : bme280_calib_t) : Z * bme280_calib_t :=
  let var1 := ((((adc_T >> 3) - (dig_T1 c << 1)) * dig_T2 c) >> 11)%i32 in
  let var2 := ((((((adc_T >> 4) - dig_T1 c) * ((adc_T >> 4) - dig_T1 c)) >> 12)
                * dig_T3 c) >> 14)%i32 in
  let c := set_t_fine c (var1 + var2)%i32 in
  (((t_fine c * 5 + 128) >> 8)%i32, c).

Definition compensate_T (adc_T : Z) (c : bme280_calib_t) : double * bme280_calib_t :=
  let '(T, c) := compensate_T_fixed adc_T c in (* degC * 100 *)
  (double_div T 100, c).

(** [var1] and [var2] as they stand when [var1 == 0] is tested. *)
Definition compensate_P_terms (c : bme280_calib_t) : Z * Z :=
  let var1 := (t_fine c - 128000)%i64 in
  let var2 := (var1 * var1 * dig_P6 c)%i64 in
  let var2 := (var2 + ((var1 * dig_P5 c) << 17))%i64 in
  let var2 := (var2 + (dig_P4 c << 35))%i64 in
  let var1 := (((var1 * var1 * dig_P3 c) >> 8) + ((var1 * dig_P2 c) << 12))%i64 in
  let var1 := ((((1 << 47) + var1) * dig_P1 c) >> 33)%i64 in
  (var1, var2).

(** [p] in Q4.4 pascals, computed past the test; [None] when the division
    has no value. *)
Definition compensate_P_fixed (adc_P : Z) (c : bme280_calib_t) (var1 var2 : Z) : option Z :=
  let p := (1048576 - adc_P)%i32 in
  match I64.div ((((p << 31) - var2) * 3125)%i64) var1 with
  | None => None
  | Some p =>
      let var1 := ((dig_P9 c * (p >> 13) * (p >> 13)) >> 25)%i64 in
      let var2 := ((dig_P8 c * p) >> 19)%i64 in
      Some (((p + var1 + var2) >> 8) + (dig_P7 c << 4))%i64
  end.

(** [None] stands for a run whose division has no value. *)
Definition compensate_P (adc_P : Z) (c : bme280_calib_t) : option double * bme280_calib_t :=
  let '(var1, var2) := compensate_P_terms c in
  if var1 =? 0 then (Some 0%float, c) (* avoid div by zero *)
  else match compensate_P_fixed adc_P c var1 var2 with
       | None => (None, c)
       | Some p => (Some (double_div p 25600), c)
       end.

(** [v_x1_u32r] before the two clamps. *)
Definition compensate_H_raw (adc_H : Z) (c : bme280_calib_t) : Z :=
  let v_x1_u32r := (t_fine c - 76800)%i32 in
  let v_x1_u32r :=
    (((((adc_H << 14) - (dig_H4 c << 20) - (dig_H5 c * v_x1_u32r)) + 16384) >> 15) *
     (((((((v_x1_u32r * dig_H6 c) >> 10) *
          (((v_x1_u32r * dig_H3 c) >> 11) + 32768)) >> 10) + 2097152) *
       dig_H2 c + 8192) >> 14))%i32 in
  (v_x1_u32r - (((((v_x1_u32r >> 15) * (v_x1_u32r >> 15)) >> 7) * dig_H1 c) >> 4))%i32.

(** [v_x1_u32r] after the two clamps. *)
Definition compensate_H_fixed (adc_H : Z) (c : bme280_calib_t) : Z :=
  let v_x1_u32r := compensate_H_raw adc_H c in
  let v_x1_u32r := if v_x1_u32r <? 0 then 0 else v_x1_u32r in
  if v_x1_u32r >? 419430400 then 419430400 else v_x1_u32r.

Definition compensate_H (adc_H : Z) (c : bme280_calib_t) : double * bme280_calib_t :=
  let v_x1_u32r := compensate_H_fixed adc_H c in
  let h := (v_x1_u32r >> 12)%i32 in (* Q20.12 -> divide by 4096 *)
  (double_div h 1024, c). (* gives %RH *)

Section Main.
Context {bus : Type} (host : i2c_host bus).

(** [argv] with the program name first.  [calib] and [adc] are the
    indeterminate contents of the automatic variables [calib] and
    [adc_T], [adc_P], [adc_H].  The result is the exit status, what the
    run did, and the descriptor's device when one was opened; [None]
    stands for a run whose division has no value. *)
Definition main (argv : list String.string) (calib : bme280_calib_t) (adc : Z * Z * Z)
  : option (Z * list action * option bus) :=
  let dev := host_dev host in
  let i2c_dev := if (2 <=? length argv)%nat then nth 1 argv String.EmptyString
                 else "/dev/i2c-1"%string in
  let addr := if (3 <=? length argv)%nat
              then wrap32 (host_strtol host (nth 2 argv String.EmptyString))
              else 0x76 in
  match host_open host i2c_dev with
  | None => Some (1, [Stderr (Failed_to_open i2c_dev)], None)
  | Some fd =>
  let '(r, fd) := host_ioctl host fd addr in
  if r <? 0 then Some (1, [Stderr (Failed_to_set_address addr); Close], Some fd) else
  let id := Byte.x00 in
  let '(r, id, fd) := i2c_read_reg dev fd REG_ID id in
  if r <? 0 then Some (1, [Stderr Failed_to_read_chip_id; Close], Some fd) else
  let out :=
    if negb (byte.unsigned id =? BME280_CHIP_ID)
    then [Stderr (Unexpected_chip_id (byte.unsigned id))]
         (* Not exiting immediately *)
    else [Stdout (Detected (byte.unsigned id) addr i2c_dev)] in
  let '(r, calib, fd) := read_calibration dev fd calib in
  if r <? 0 then Some (1, out ++ [Stderr Failed_to_read_calibration; Close], Some fd) else
  let '(r, fd) := configure_bme280 dev fd in
  if r <? 0 then Some (1, out ++ [Stderr Failed_to_configure; Close], Some fd) else
  (* Wait for a fresh measurement *)
  let out := out ++ [Usleep 100000] in (* 100 ms *)
  (* Optionally poll STATUS[3] measuring bit *)
  let '(sleeps, fd) := poll_status dev 10 fd in
  let out := out ++ sleeps in
  let '(r, adc, fd) := read_raw_data dev fd adc in
  if r <? 0 then Some (1, out ++ [Stderr Failed_to_read_raw; Close], Some fd) else
  let '(adc_T, adc_P, adc_H) := adc in
  let '(temp_c, calib) := compensate_T adc_T calib in
  let '(pres_hpa, calib) := compensate_P adc_P calib in
  match pres_hpa with
  | None => None
  | Some pres_hpa =>
  let '(hum_rh, calib) := compensate_H adc_H calib in
  Some (0, out ++ [Stdout (Temperature temp_c);
                   Stdout (Pressure pres_hpa);
                   Stdout (Humidity hum_rh);
                   Close], Some fd)
  end
  end.

End Main.

End Bme280.

(** ** src/bpbme280.c *)

Module Bpbme280.

Section Transport.
Context {bus : Type} (dev : i2c_dev bus).

Definition i2c_read_regs (fd : bus) (start_reg : byte) (buf : list byte) (len : nat)
  : Z * list byte * bus :=
  let '(w, fd) := dev_write dev fd [start_reg] in
  if negb (w =? 1) then (-1, buf, fd) else
  let '(r, buf, fd) := sys_read dev fd buf len in
  ((if r =? Z.of_nat len then 0 else -1), buf, fd).

Definition U16_LE (p : list byte) (i : nat) : Z :=
  wrapu16 (Z.lor (at_ p i) (wrapu16 (at_ p (i + 1)) << 8)%i32).

Definition S16_LE (p : list byte) (i : nat) : Z :=
  wrap16 (Z.lor (at_ p i) (wrap16 (at_ p (i + 1)) << 8)%i32).

(** The assignments to [*c] that follow the two reads. *)
Definition decode_calib (b1 b2 : list byte) (c : bme280_calib_t) : bme280_calib_t :=
  {| dig_T1 := U16_LE b1 0;  dig_T2 := S16_LE b1 2;  dig_T3 := S16_LE b1 4;
     dig_P1 := U16_LE b1 6;  dig_P2 := S16_LE b1 8;  dig_P3 := S16_LE b1 10;
     dig_P4 := S16_LE b1 12; dig_P5 := S16_LE b1 14; dig_P6 := S16_LE b1 16;
     dig_P7 := S16_LE b1 18; dig_P8 := S16_LE b1 20; dig_P9 := S16_LE b1 22;
     dig_H1 := at_ b1 24;
     dig_H2 := S16_LE b2 0;
     dig_H3 := at_ b2 2;
     dig_H4 := wrap16 (Z.lor (wrap16 (at_ b2 3) << 4)%i32 (Z.land (at_ b2 4) 15));
     dig_H5 := wrap16 (Z.lor (wrap16 (at_ b2 5) << 4)%i32 (at_ b2 4 >> 4)%i32);
     dig_H6 := wrap8 (at_ b2 6);
     t_fine := t_fine c |}.

Definition bme280_read_calib (fd : bus) (c : bme280_calib_t) : Z * bme280_calib_t * bus :=
  let b1 := uninit 26 in
  let b2 := uninit 7 in
  let '(r, b1, fd) := i2c_read_regs fd CALIB00 b1 26 in
  if r <? 0 then (-1, c, fd) else
  let '(r, b2, fd) := i2c_read_regs fd CALIB26 b2 7 in
  if r <? 0 then (-1, c, fd) else
  (0, decode_calib b1 b2 c, fd).

Definition i2c_write_reg (fd : bus) (reg val : byte) : Z * bus :=
  let buf := [reg; val] in
  let '(w, fd) := dev_write dev fd buf in
  ((if w =? 2 then 0 else -1), fd).

(** [val] is the byte [*val] holds on entry. *)
Definition i2c_read_reg (fd : bus) (reg : byte) (val : byte) : Z * byte * bus :=
  let '(w, fd) := dev_write dev fd [reg] in
  if negb (w =? 1) then (-1, val, fd) else
  let '(r, buf, fd) := sys_read dev fd [val] 1 in
  ((if r =? 1 then 0 else -1), nth 0 buf val, fd).

Definition bme280_configure (fd : bus) : Z * bus :=
  (* Humidity oversampling x1 *)
  let '(r, fd) := i2c_write_reg fd REG_CTRL_HUM Byte.x01 in
  if r <? 0 then (-1, fd) else
  (* Temp os x1, Press os x1, mode normal *)
  let '(r, fd) := i2c_write_reg fd REG_CTRL_MEAS Byte.x27 in
  if r <? 0 then (-1, fd) else
  (* Standby 500ms, filter off *)
  let '(r, fd) := i2c_write_reg fd REG_CONFIG Byte.x80 in
  if r <? 0 then (-1, fd) else
  (0, fd).

(** The assignments that follow the read, as (adc_T, adc_P, adc_H). *)
Definition decode_raw (d : list byte) : Z * Z * Z :=
  let adc_P := Z.lor (Z.lor (at_ d 0 << 12)%i32 (at_ d 1 << 4)%i32) (at_ d 2 >> 4)%i32 in
  let adc_T := Z.lor (Z.lor (at_ d 3 << 12)%i32 (at_ d 4 << 4)%i32) (at_ d 5 >> 4)%i32 in
  let adc_H := Z.lor (at_ d 6 << 8)%i32 (at_ d 7) in
  (adc_T, adc_P, adc_H).

(** [adc] is what the three out-parameters hold on entry. *)
Definition bme280_read_raw (fd : bus) (adc : Z * Z * Z) : Z * (Z * Z * Z) * bus :=
  let d := uninit 8 in
  let '(r, d, fd) := i2c_read_regs fd REG_PRESS_MSB d 8 in
  if r <? 0 then (-1, adc, fd) else
  (0, decode_raw d, fd).

(** From [main]: the chip-id check, which only warns. *)
Definition main_check_chip (fd : bus) : list action * bus :=
  let chip := Byte.x00 in
  let '(r, chip, fd) := i2c_read_reg fd REG_ID chip in
  if (r <? 0) || negb (byte.unsigned chip =? BME280_CHIP_ID)
  then ([Stderr (Unexpected_chip_id (byte.unsigned chip))], fd)
  else ([], fd).


End Transport.

(* Compensation as per datasheet (integer math; returns doubles) *)

(** Cut like the routines of [Bme280]. *)

Definition bme280_comp_T_fixed (adc_T : Z) (c : bme280_calib_t) : Z * bme280_calib_t :=
  let var1 := ((((adc_T >> 3) - (dig_T1 c << 1)) * dig_T2 c) >> 11)%i32 in
  let var2 := ((((((adc_T >> 4) - dig_T1 c) * ((adc_T >> 4) - dig_T1 c)) >> 12) *
                dig_T3 c) >> 14)%i32 in
  let c := set_t_fine c (var1 + var2)%i32 in
  (((t_fine c * 5 + 128) >> 8)%i32, c).

Definition bme280_comp_T (adc_T : Z) (c : bme280_calib_t) : double * bme280_calib_t :=
  let '(T, c) := bme280_comp_T_fixed adc_T c in
  (double_div T 100, c).

Definition bme280_comp_P_terms (c : bme280_calib_t) : Z * Z :=
  let var1 := (t_fine c - 128000)%i64 in
  let var2 := (var1 * var1 * dig_P6 c)%i64 in
  let var2 := (var2 + ((var1 * dig_P5 c) << 17))%i64 in
  let var2 := (var2 + (dig_P4 c << 35))%i64 in
  let var1 := (((var1 * var1 * dig_P3 c) >> 8) + ((var1 * dig_P2 c) << 12))%i64 in
  let var1 := ((((1 << 47) + var1) * dig_P1 c) >> 33)%i64 in
  (var1, var2).

Definition bme280_comp_P_fixed (adc_P : Z) (c : bme280_calib_t) (var1 var2 : Z) : option Z :=
  let p := (1048576 - adc_P)%i32 in
  match I64.div ((((p << 31) - var2) * 3125)%i64) var1 with
  | None => None
  | Some p =>
      let var1 := ((dig_P9 c * (p >> 13) * (p >> 13)) >> 25)%i64 in
      let var2 := ((dig_P8 c * p) >> 19)%i64 in
      Some (((p + var1 + var2) >> 8) + (dig_P7 c << 4))%i64
  end.

Definition bme280_comp_P (adc_P : Z) (c : bme280_calib_t) : option double * bme280_calib_t :=
  let '(var1, var2) := bme280_comp_P_terms c in
  if var1 =? 0 then (Some 0%float, c)
  else match bme280_comp_P_fixed adc_P c var1 var2 with
       | None => (None, c)
       | Some p => (Some (double_div p 25600), c) (* hPa *)
       end.

Definition bme280_comp_H_raw (adc_H : Z) (c : bme280_calib_t) : Z :=
  let x := (t_fine c - 76800)%i32 in
  let v :=
    (((((adc_H << 14) - (dig_H4 c << 20) - (dig_H5 c * x)) + 16384) >> 15) *
     (((((((x * dig_H6 c) >> 10) * (((x * dig_H3 c) >> 11) + 32768)) >> 10) + 2097152) *
       (dig_H2 c + 8192)) >> 14))%i32 in
  (v - (((((v >> 15) * (v >> 15)) >> 7) * dig_H1 c) >> 4))%i32.

Definition bme280_comp_H_fixed (adc_H : Z) (c : bme280_calib_t) : Z :=
  let v := bme280_comp_H_raw adc_H c in
  let v := if v <? 0 then 0 else v in
  if v >? 419430400 then 419430400 else v.

Definition bme280_comp_H (adc_H : Z) (c : bme280_calib_t) : double * bme280_calib_t :=
  let v := bme280_comp_H_fixed adc_H c in
  let h := double_div (v >> 12)%i32 1024 in
  (h, c). (* %RH *)

End Bpbme280.

(** ** Definitions used by the statements *)

(** The bytes [buf[i]], ..., [buf[i+n-1]]. *)
Definition slice (buf : list byte) (i n : nat) : list byte :=
  map (fun k => nth k buf Byte.x00) (seq i n).

(** The encoders the round trip is stated with: a 16-bit field is written
    back as its little-endian byte pair, an 8-bit field as one byte. *)
Definition encode16 (v : Z) : list byte := le_split 2 v.
Definition encode8 (v : Z) : list byte := [byte.of_Z v].

(** The transfer behind [i2c_read_regs]: the register select is
    acknowledged (write(2) returns 1) and read(2) hands over all [len]
    bytes.  [false] when the write fails, the read fails, or the read
    comes back short. *)
Definition delivers {bus} (dev : i2c_dev bus) (fd : bus) (reg : byte) (len : nat) : bool :=
  let '(w, fd) := dev_write dev fd [reg] in
  (w =? 1) &&
  match fst (dev_read dev fd len) with
  | Some bs => (len <=? length bs)%nat
  | None => false
  end.

(** The calibration sets the monotonicity result covers: on 20-bit raw
    values no 32-bit intermediate of [compensate_T] can overflow, and the
    linear coefficient dominates the quadratic one. *)
Record T_regular (c : bme280_calib_t) : Prop := {
  reg_T1 : 19195 <= dig_T1 c <= 46340;
  reg_T3 : Z.abs (dig_T3 c) <= 4096;
  reg_T2 : 4 * Z.abs (dig_T3 c) + 2048 <= dig_T2 c;
  reg_lo : 2 * dig_T1 c * dig_T2 c <= 2 ^ 31;
  reg_hi : (131071 - 2 * dig_T1 c) * dig_T2 c < 2 ^ 31
}.

(** [t_fine] without the wraps, as a function of [u = adc_T >> 3]. *)
Definition t_lin (c : bme280_calib_t) (u : Z) : Z :=
  (u - 2 * dig_T1 c) * dig_T2 c / 2048.
Definition t_quad (c : bme280_calib_t) (x : Z) : Z :=
  (x - dig_T1 c) * (x - dig_T1 c) / 4096 * dig_T3 c / 16384.
Definition t_fine_of (c : bme280_calib_t) (u : Z) : Z :=
  t_lin c u + t_quad c (u / 2).

(** [P lo], [P (lo+1)], ..., [P (lo+n-1)] all hold. *)
Fixpoint all_from (n : nat) (lo : Z) (P : Z -> bool) : bool :=
  match n with
  | O => true
  | S k => P lo && all_from k (lo + 1) P
  end.

(** [P] holds of every integer of [lo .. hi]. *)
Definition all_in (lo hi : Z) (P : Z -> bool) : bool :=
  all_from (Z.to_nat (hi - lo + 1)) lo P.

(** The scaling [(double)n / 1024.0] of a shifted humidity value. *)
Definition humidity_scale_ok (n : Z) : bool :=
  let h := double_div n 1024 in
  PrimFloat.leb 0 h && PrimFloat.leb h 100 && PrimFloat.leb h 400.

(** [(double)n / 100.0] does not decrease from [n] to [n + 1]. *)
Definition celsius_step_ok (n : Z) : bool :=
  PrimFloat.leb (double_div n 100) (double_div n 100) &&
  PrimFloat.leb (double_div n 100) (double_div (n + 1) 100).

(** The encoder the raw round trip is stated with: the eight bytes of
    the sample block F7..FE for a triple (adc_T, adc_P, adc_H), the unused
    low nibbles of the two xlsb bytes clear. *)
Definition encode_raw (adc : Z * Z * Z) : list byte :=
  let '(adc_T, adc_P, adc_H) := adc in
  [byte.of_Z (adc_P / 4096); byte.of_Z (adc_P / 16); byte.of_Z (adc_P mod 16 * 16);
   byte.of_Z (adc_T / 4096); byte.of_Z (adc_T / 16); byte.of_Z (adc_T mod 16 * 16);
   byte.of_Z (adc_H / 256); byte.of_Z adc_H].

(** One transfer on the device, with what it returned. *)
Inductive xfer : Type :=
| X_write (bs : list byte) (ret : Z)
| X_read (len : nat) (res : option (list byte)).

(** [dev] with a log of its transfers kept beside its state. *)
Definition traced {bus} (dev : i2c_dev bus) : i2c_dev (bus * list xfer) :=
  mk_i2c_dev
    (fun st bs =>
       let '(w, s) := dev_write dev (fst st) bs in
       (w, (s, snd st ++ [X_write bs w])))
    (fun st len =>
       let '(r, s) := dev_read dev (fst st) len in
       (r, (s, snd st ++ [X_read len r]))).

(** [host] with its device traced; the log starts empty at open(2). *)
Definition traced_host {bus} (host : i2c_host bus) : i2c_host (bus * list xfer) :=
  mk_i2c_host
    (traced (host_dev host))
    (fun path =>
       match host_open host path with
       | Some s => Some (s, [])
       | None => None
       end)
    (fun st addr =>
       let '(r, s) := host_ioctl host (fst st) addr in
       (r, (s, snd st)))
    (host_strtol host).

(** The bus discipline of a log: it never starts a read that does not
    come right after a one-byte write (the register select) that was
    acknowledged in full. *)
Fixpoint paired (l : list xfer) : bool :=
  match l with
  | [] => true
  | X_read _ _ :: _ => false
  | X_write bs w :: rest =>
      match rest with
      | X_read _ _ :: rest' => (length bs =? 1)%nat && (w =? 1) && paired rest'
      | _ => paired rest
      end
  end.

Definition is_close (a : action) : bool :=
  match a with Close => true | _ => false end.

(** The messages that report a failed step. *)
Definition is_failure (a : action) : bool :=
  match a with
  | Stderr (Failed_to_open _) | Stderr (Failed_to_set_address _)
  | Stderr Failed_to_read_chip_id | Stderr Failed_to_read_calibration
  | Stderr Failed_to_configure | Stderr Failed_to_read_raw => true
  | _ => false
  end.

(** The three lines of a measurement. *)
Definition is_measurement (a : action) : bool :=
  match a with
  | Stdout (Temperature _) | Stdout (Pressure _) | Stdout (Humidity _) => true
  | _ => false
  end.

(** What a transfer asks for: the bytes written, or the length read. *)
Definition shape (x : xfer) : list byte + nat :=
  match x with
  | X_write bs _ => inl bs
  | X_read len _ => inr len
  end.

(** A status read that saw the measuring flag clear. *)
Definition saw_ready (x : xfer) : bool :=
  match x with
  | X_read _ (Some (b :: _)) => Z.land (byte.unsigned b) 8 =? 0
  | _ => false
  end.

(** [l] asks, in order, for an initial segment of what [S] lists. *)
Definition follows (l : list xfer) (S : list (list byte + nat)) : Prop :=
  map shape l = firstn (length l) S.

(** A transfer that went through in full. *)
Definition acked (x : xfer) : bool :=
  match x with
  | X_write bs w => w =? Z.of_nat (length bs)
  | X_read len (Some bs) => (len <=? length bs)%nat
  | X_read _ None => false
  end.

(** [l] is a run through the transfers [S]: it asks for them in order
    and stops at the first that does not go through; [ok] tells whether
    all of them did. *)
Definition runs (S : list (list byte + nat)) (l : list xfer) (ok : bool) : Prop :=
  follows l S /\ (1 <= length l)%nat /\
  forallb acked (removelast l) = true /\
  (ok = true <-> length l = length S /\ forallb acked l = true).

(** A stretch of a log: in bus discipline, at most [k] transfers, each
    of a shape that [V] lists. *)
Definition segment (V : list (list byte + nat)) (k : nat) (l : list xfer) : Prop :=
  paired l = true /\ (length l <= k)%nat /\ Forall (fun x => In (shape x) V) l.

(** The writes of [configure_bme280], in order. *)
Definition config_sequence : list (list byte + nat) :=
  [inl [REG_CTRL_HUM; Byte.x01]; inl [REG_CTRL_MEAS; Byte.x27]; inl [REG_CONFIG; Byte.x80]].

(** The transfers of [read_calibration], in order. *)
Definition calibration_sequence : list (list byte + nat) :=
  [inl [CALIB00]; inr 26%nat; inl [CALIB26]; inr 7%nat].

(** Neither a close, nor a failure report, nor a measurement line. *)
Definition quiet (a : action) : bool :=
  negb (is_close a) && negb (is_failure a) && negb (is_measurement a).

(** The runs of [main], by how they end: exit status, what was done,
    whether a descriptor had been opened. *)
Inductive ending : Z -> list action -> bool -> Prop :=
| Ends_unopened m :
    is_failure (Stderr m) = true ->
    ending 1 [Stderr m] false
| Ends_failed pre m :
    forallb quiet pre = true -> is_failure (Stderr m) = true ->
    ending 1 (pre ++ [Stderr m; Close]) true
| Ends_measured pre t p h :
    forallb quiet pre = true -> dle 0 h -> dle h 100 ->
    ending 0 (pre ++ [Stdout (Temperature t); Stdout (Pressure p);
                      Stdout (Humidity h); Close]) true.

(** Whether [main] got as far as holding a descriptor. *)
Definition opened {bus} (fdo : option bus) : bool :=
  match fdo with Some _ => true | None => false end.

(** Registers [a], [a+1], ..., [a+n-1] of a register file. *)
Definition block (mem : Z -> byte) (a : Z) (n : nat) : list byte :=
  map (fun k => mem (a + Z.of_nat k)) (seq 0 n).

(** What [main] computes from the two calibration blocks and the sample
    block. *)
Definition pipeline (buf1 buf2 data : list byte) (calib : bme280_calib_t)
  : double * option double * double :=
  let calib := Bme280.decode_calibration buf1 buf2 calib in
  let '(adc_T, adc_P, adc_H) := Bme280.decode_raw data in
  let '(temp_c, calib) := Bme280.compensate_T adc_T calib in
  let '(pres_hpa, calib) := Bme280.compensate_P adc_P calib in
  let '(hum_rh, calib) := Bme280.compensate_H adc_H calib in
  (temp_c, pres_hpa, hum_rh).

(** The flag of register 0xF3 that says a conversion is running. *)
Definition measuring (mem : Z -> byte) : bool :=
  negb (Z.land (byte.unsigned (mem 0xF3)) 8 =? 0).

(** Every transfer [main] of [bme280.c] can ask for. *)
Definition main_vocabulary : list (list byte + nat) :=
  [inl [REG_ID]; inr 1%nat] ++ calibration_sequence ++ config_sequence
  ++ [inl [REG_STATUS]; inr 1%nat] ++ [inl [REG_PRESS_MSB]; inr 8%nat].

(** Where the specification puts H1: "a single unsigned byte at a fixed
    offset within block A (the 26th byte)", register 0xA1 of the
    datasheet. *)
Definition spec_H1_offset : nat := 25.

(** ** Test data *)


(** The synthetic calibration set of the end-to-end scenario. *)
Definition sample_calib : bme280_calib_t :=
  mk_calib 27504 26435 (-1000)
           36477 (-10685) 3024 2855 140 (-7) 15500 (-14600) 6000
           75 362 0 331 0 30
           0.

(** Block A (registers 0x88..0xA1) of a sensor that holds this set:
    T1..T3 and P1..P9 as little-endian pairs in 0x88..0x9F, nothing in
    the unused register 0xA0, H1 = 75 in 0xA1. *)
Definition sample_block_A : list byte :=
  flat_map encode16 [27504; 26435; -1000;
                     36477; -10685; 3024; 2855; 140; -7; 15500; -14600; 6000]
  ++ [Byte.x00; Byte.x4b].

(** The same set with [dig_P1] zeroed, after a temperature step:
    [var1] comes out zero. *)
Definition degenerate_calib : bme280_calib_t :=
  mk_calib 27504 26435 (-1000)
           0 (-10685) 3024 2855 140 (-7) 15500 (-14600) 6000
           75 362 0 331 0 30
           128422.

(** A set within the field types, with a [t_fine] within [int32_t],
    on which [var1] comes out -1 and, for [adc_P = 1048574], the
    dividend comes out INT64_MIN. *)
Definition overflow_calib : bme280_calib_t :=
  mk_calib 27504 26435 (-1000)
           1 (-3526) (-31154) (-16000) (-32768) 0 15500 (-14600) 6000
           75 362 0 331 0 30
           2147483647.

(** The same set with the sign of [dig_T2] flipped. *)
Definition falling_calib : bme280_calib_t :=
  mk_calib 27504 (-26435) (-1000)
           36477 (-10685) 3024 2855 140 (-7) 15500 (-14600) 6000
           75 362 0 331 0 30
           0.

(** A valid set whose linear product leaves the 32-bit range. *)
Definition steep_calib : bme280_calib_t :=
  mk_calib 0 32767 0
           36477 (-10685) 3024 2855 140 (-7) 15500 (-14600) 6000
           75 362 0 331 0 30
           0.

(** A well-behaved device: a register file [mem] read through an address
    pointer that a one-byte write sets and every byte read advances. *)
Definition reg_dev (mem : Z -> byte) : i2c_dev Z :=
  mk_i2c_dev
    (fun ptr bs =>
       match bs with
       | [reg] => (1, byte.unsigned reg)
       | _ => (Z.of_nat (length bs), ptr)
       end)
    (fun ptr len =>
       (Some (map (fun k => mem (ptr + Z.of_nat k)) (seq 0 len)), ptr + Z.of_nat len)).

(** A machine on which open(2) and ioctl(2) succeed, with a register
    file for a device; [strtol] is any function. *)
Definition reg_host (mem : Z -> byte) (strtol : String.string -> Z) : i2c_host Z :=
  mk_i2c_host (reg_dev mem) (fun _ => Some 0) (fun ptr _ => (0, ptr)) strtol.

(** A device that acknowledges every register select, answers its first
    [fd] reads in full (every byte 0xff) and cuts later reads one byte
    short. *)
Definition flaky_dev : i2c_dev nat :=
  mk_i2c_dev
    (fun fd _ => (1, fd))
    (fun fd len =>
       match fd with
       | O => (Some (repeat Byte.xff (len - 1)), O)
       | S fd => (Some (repeat Byte.xff len), fd)
       end).

(** A machine on which open(2) and ioctl(2) succeed, with [flaky_dev]
    answering [n] reads in full. *)
Definition flaky_host (n : nat) : i2c_host nat :=
  mk_i2c_host flaky_dev (fun _ => Some n) (fun fd _ => (0, fd)) (fun _ => 0).

(** ** Facts about machine integers *)

Lemma wrap_signed_range w z :
  0 < w -> - 2 ^ (w - 1) <= wrap_signed w z < 2 ^ (w - 1).
Proof.
  intros Hw. unfold wrap_signed.
  assert (E : 2 ^ w = 2 * 2 ^ (w - 1)).
  { replace w with (Z.succ (w - 1)) at 1 by lia. apply Z.pow_succ_r. lia. }
  assert (0 < 2 ^ (w - 1)) by (apply Z.pow_pos_nonneg; lia).
  pose proof (Z.mod_pos_bound (z + 2 ^ (w - 1)) (2 ^ w)). lia.
Qed.

Lemma wrap_signed_id w z :
  0 < w -> - 2 ^ (w - 1) <= z < 2 ^ (w - 1) -> wrap_signed w z = z.
Proof.
  intros Hw Hz. unfold wrap_signed.
  assert (E : 2 ^ w = 2 * 2 ^ (w - 1)).
  { replace w with (Z.succ (w - 1)) at 1 by lia. apply Z.pow_succ_r. lia. }
  rewrite Z.mod_small by lia. lia.
Qed.

Lemma wrap32_range z : in_int32 (wrap32 z).
Proof. apply (wrap_signed_range 32). lia. Qed.

Lemma wrap64_range z : in_int64 (wrap64 z).
Proof. apply (wrap_signed_range 64). lia. Qed.

Lemma wrap16_range z : in_int16 (wrap16 z).
Proof. apply (wrap_signed_range 16). lia. Qed.

Lemma wrap8_range z : in_int8 (wrap8 z).
Proof. apply (wrap_signed_range 8). lia. Qed.

Lemma wrap32_id z : in_int32 z -> wrap32 z = z.
Proof. apply (wrap_signed_id 32). lia. Qed.

Lemma wrap16_id z : in_int16 z -> wrap16 z = z.
Proof. apply (wrap_signed_id 16). lia. Qed.

Lemma wrapu16_id z : in_uint16 z -> wrapu16 z = z.
Proof. intros H. apply Z.mod_small. exact H. Qed.

Lemma at_range buf i : 0 <= at_ buf i < 256.
Proof. unfold at_. pose proof (byte.unsigned_range (nth i buf Byte.x00)). lia. Qed.

Lemma lor_bound n a b :
  0 <= n -> 0 <= a < 2 ^ n -> 0 <= b < 2 ^ n -> 0 <= Z.lor a b < 2 ^ n.
Proof.
  intros Hn Ha Hb. split. { apply Z.lor_nonneg; lia. }
  assert (0 <= Z.lor a b) by (apply Z.lor_nonneg; lia).
  destruct (Z.eq_dec (Z.lor a b) 0) as [E|E]. { rewrite E. lia. }
  apply Z.log2_lt_pow2; [lia|].
  rewrite Z.log2_lor by lia.
  destruct (Z.eq_dec a 0) as [->|]; destruct (Z.eq_dec b 0) as [->|]; simpl in *; try lia.
  - rewrite Z.max_r by (apply Z.log2_nonneg). apply Z.log2_lt_pow2; lia.
  - rewrite Z.max_l by (apply Z.log2_nonneg). apply Z.log2_lt_pow2; lia.
  - apply Z.max_lub_lt; apply Z.log2_lt_pow2; lia.
Qed.

Lemma land_low_shiftl a b n : 0 <= n -> 0 <= b < 2 ^ n -> Z.land b (Z.shiftl a n) = 0.
Proof.
  intros Hn Hb. apply Z.bits_inj'. intros i Hi.
  rewrite Z.land_spec, Z.bits_0.
  destruct (Z.ltb_spec i n).
  - rewrite Z.shiftl_spec_low by lia. apply andb_false_r.
  - destruct (Z.eq_dec b 0) as [->|]. { now rewrite Z.bits_0. }
    rewrite (Z.bits_above_log2 b i); [reflexivity|lia|].
    apply Z.lt_le_trans with n; try lia. apply Z.log2_lt_pow2; lia.
Qed.

Lemma lor_shift_add a b n :
  0 <= n -> 0 <= b < 2 ^ n -> Z.lor b (Z.shiftl a n) = b + a * 2 ^ n.
Proof.
  intros Hn Hb. pose proof (land_low_shiftl a b n Hn Hb) as L.
  rewrite <- Z.shiftl_mul_pow2 by lia.
  rewrite (Z.add_nocarry_lxor _ _ L).
  apply Z.bits_inj'. intros i Hi.
  rewrite Z.lor_spec, Z.lxor_spec.
  apply (f_equal (fun z => Z.testbit z i)) in L. rewrite Z.land_spec, Z.bits_0 in L.
  destruct (Z.testbit b i), (Z.testbit (Z.shiftl a n) i); simpl in *; congruence.
Qed.

Lemma all_from_spec n : forall lo P,
  all_from n lo P = true -> forall z, lo <= z < lo + Z.of_nat n -> P z = true.
Proof.
  induction n as [|k IH]; intros lo P H z Hz; [lia|].
  cbn [all_from] in H. apply andb_true_iff in H as [H0 Hk].
  destruct (Z.eq_dec z lo) as [->|Hne]; [exact H0|].
  apply (IH (lo + 1) P Hk). lia.
Qed.

Lemma all_in_spec lo hi P :
  all_in lo hi P = true -> forall z, lo <= z <= hi -> P z = true.
Proof.
  unfold all_in. intros H z Hz.
  apply (all_from_spec _ _ _ H). rewrite Z2Nat.id; lia.
Qed.

(** ** The two copies of the driver *)

Lemma comp_T_fixed_agree adc_T c :
  Bpbme280.bme280_comp_T_fixed adc_T c = Bme280.compensate_T_fixed adc_T c.
Proof. unfold Bpbme280.bme280_comp_T_fixed, Bme280.compensate_T_fixed. reflexivity. Qed.

(** The temperature routine of [bpbme280.c] is the one of [bme280.c]. *)
Lemma comp_T_agree adc_T c :
  Bpbme280.bme280_comp_T adc_T c = Bme280.compensate_T adc_T c.
Proof.
  unfold Bpbme280.bme280_comp_T, Bme280.compensate_T.
  rewrite comp_T_fixed_agree. reflexivity.
Qed.

Lemma comp_P_terms_agree c :
  Bpbme280.bme280_comp_P_terms c = Bme280.compensate_P_terms c.
Proof. unfold Bpbme280.bme280_comp_P_terms, Bme280.compensate_P_terms. reflexivity. Qed.

Lemma comp_P_fixed_agree adc_P c var1 var2 :
  Bpbme280.bme280_comp_P_fixed adc_P c var1 var2
  = Bme280.compensate_P_fixed adc_P c var1 var2.
Proof. unfold Bpbme280.bme280_comp_P_fixed, Bme280.compensate_P_fixed. reflexivity. Qed.

(** The pressure routine of [bpbme280.c] is the one of [bme280.c]. *)
Lemma comp_P_agree adc_P c :
  Bpbme280.bme280_comp_P adc_P c = Bme280.compensate_P adc_P c.
Proof.
  unfold Bpbme280.bme280_comp_P, Bme280.compensate_P.
  rewrite comp_P_terms_agree.
  destruct (Bme280.compensate_P_terms c) as [var1 var2].
  rewrite comp_P_fixed_agree. reflexivity.
Qed.

(** The two calibration loaders decode alike. *)
Lemma decode_agree b1 b2 c :
  Bpbme280.decode_calib b1 b2 c = Bme280.decode_calibration b1 b2 c.
Proof. reflexivity. Qed.

(** C1. The claim that [bme280_comp_H] returns what [compensate_H] returns
    fails on the spec's own end-to-end scenario.  With the synthetic
    calibration set, [t_fine = 128422] and [adc_H = 30000], [bme280.c]
    yields 49.46484375 %RH while [bpbme280.c] yields 74.4345703125 %RH:
    it multiplies by [dig_H2 + 8192] where the sibling (and the datasheet)
    multiplies by [dig_H2] and then adds 8192, and the 32-bit product
    overflows. *)
Theorem comp_H_diverges :
  let c := set_t_fine sample_calib 128422 in
  Bme280.compensate_H 30000 c = (49.46484375%float, c) /\
  Bpbme280.bme280_comp_H 30000 c = (74.4345703125%float, c) /\
  Bme280.compensate_H_fixed 30000 c = 207472472 /\
  Bpbme280.bme280_comp_H_fixed 30000 c = 312202747.
Proof. vm_compute. repeat split. Qed.

(** ** The calibration loader *)

(** C5. Whatever the other bytes of the two blocks, block B bytes
    3, 4, 5 = 0x1E, 0x3F, 0x02 decode to dig_H4 = 495 and dig_H5 = 35. *)
Theorem decode_H4_H5_example buf1 b0 b1 b2 b6 c :
  dig_H4 (Bme280.decode_calibration
            buf1 [b0; b1; b2; Byte.x1e; Byte.x3f; Byte.x02; b6] c) = 495 /\
  dig_H5 (Bme280.decode_calibration
            buf1 [b0; b1; b2; Byte.x1e; Byte.x3f; Byte.x02; b6] c) = 35.
Proof. split; reflexivity. Qed.

Lemma packed12_range hi lo :
  0 <= hi < 256 -> 0 <= lo < 16 ->
  0 <= wrap16 (Z.lor (wrap16 hi << 4)%i32 lo) <= 4095.
Proof.
  intros Hhi Hlo. unfold I32.shl.
  rewrite (wrap16_id hi) by (unfold in_int16; lia).
  rewrite Z.shiftl_mul_pow2 by lia.
  rewrite wrap32_id by (unfold in_int32; lia).
  pose proof (lor_bound 12 (hi * 2 ^ 4) lo) as B.
  rewrite wrap16_id; unfold in_int16; lia.
Qed.

Lemma low_nibble_range b : 0 <= Z.land b 15 < 16.
Proof.
  change 15 with (Z.ones 4). rewrite Z.land_ones by lia.
  apply Z.mod_pos_bound. lia.
Qed.

Lemma high_nibble_range b : 0 <= b < 256 -> 0 <= (b >> 4)%i32 < 16.
Proof.
  intros Hb. unfold I32.sar. rewrite Z.shiftr_div_pow2 by lia.
  change (2 ^ 4) with 16. split.
  - apply Z.div_pos; lia.
  - apply Z.div_lt_upper_bound; lia.
Qed.

(** C9. In both copies of the loader the packed values are widened with
    their top four bits clear: dig_H4 and dig_H5 always lie in
    [0, 4095], whatever the bytes of block B. *)
Theorem dig_H4_H5_range buf1 buf2 c :
  0 <= dig_H4 (Bme280.decode_calibration buf1 buf2 c) <= 4095 /\
  0 <= dig_H5 (Bme280.decode_calibration buf1 buf2 c) <= 4095 /\
  0 <= dig_H4 (Bpbme280.decode_calib buf1 buf2 c) <= 4095 /\
  0 <= dig_H5 (Bpbme280.decode_calib buf1 buf2 c) <= 4095.
Proof.
  cbn [dig_H4 dig_H5 Bme280.decode_calibration Bpbme280.decode_calib].
  pose proof (at_range buf2 3). pose proof (at_range buf2 4).
  pose proof (at_range buf2 5).
  pose proof (low_nibble_range (at_ buf2 4)).
  pose proof (high_nibble_range (at_ buf2 4)).
  repeat split; apply packed12_range; lia.
Qed.

(** *** Round trip of the plain little-endian fields *)

Lemma wrap_signed_mod w z : 0 < w -> wrap_signed w z mod 2 ^ w = z mod 2 ^ w.
Proof.
  intros Hw. unfold wrap_signed.
  rewrite Zminus_mod_idemp_l. f_equal. lia.
Qed.

Lemma le_pair p i :
  Z.lor (at_ p i) (Z.shiftl (at_ p (i + 1)) 8)
  = le_combine [nth i p Byte.x00; nth (i + 1) p Byte.x00].
Proof.
  unfold le_combine, at_.
  rewrite Z.shiftl_0_l, Z.lor_0_r. reflexivity.
Qed.

Lemma le_pair_range p i :
  0 <= Z.lor (at_ p i) (Z.shiftl (at_ p (i + 1)) 8) < 2 ^ 16.
Proof.
  pose proof (at_range p i). pose proof (at_range p (i + 1)).
  rewrite lor_shift_add by lia. lia.
Qed.

Lemma shl8_byte b : 0 <= b < 256 -> (b << 8)%i32 = Z.shiftl b 8.
Proof.
  intros Hb. unfold I32.shl. apply wrap32_id.
  rewrite Z.shiftl_mul_pow2 by lia. unfold in_int32. lia.
Qed.

Lemma encode16_U16_LE p i :
  encode16 (Bme280.U16_LE p i) = slice p i 2.
Proof.
  unfold Bme280.U16_LE, encode16, slice.
  pose proof (at_range p (i + 1)) as H1.
  rewrite (wrapu16_id (at_ p (i + 1))) by (unfold in_uint16; lia).
  rewrite shl8_byte by lia.
  rewrite wrapu16_id by (apply le_pair_range).
  rewrite le_pair.
  change 2%nat with (length [nth i p Byte.x00; nth (i + 1) p Byte.x00]) at 1.
  rewrite split_le_combine. cbn [seq map].
  now rewrite Nat.add_1_r.
Qed.

Lemma encode16_S16_LE p i :
  encode16 (Bme280.S16_LE p i) = slice p i 2.
Proof.
  unfold Bme280.S16_LE, encode16, slice.
  pose proof (at_range p (i + 1)) as H1.
  rewrite (wrap16_id (at_ p (i + 1))) by (unfold in_int16; lia).
  rewrite shl8_byte by lia.
  rewrite le_split_mod. unfold wrap16.
  change (Z.of_nat 2 * 8) with 16.
  rewrite wrap_signed_mod by lia.
  rewrite Z.mod_small by (apply le_pair_range).
  rewrite le_pair.
  change 2%nat with (length [nth i p Byte.x00; nth (i + 1) p Byte.x00]) at 1.
  rewrite split_le_combine. cbn [seq map].
  now rewrite Nat.add_1_r.
Qed.

Lemma encode8_at p i : encode8 (at_ p i) = slice p i 1.
Proof. unfold encode8, at_, slice. cbn [seq map]. now rewrite byte.of_Z_unsigned. Qed.

Lemma encode8_wrap8_at p i : encode8 (wrap8 (at_ p i)) = slice p i 1.
Proof.
  rewrite <- encode8_at. unfold encode8. f_equal.
  apply byte.unsigned_inj. rewrite !byte.unsigned_of_Z. unfold byte.wrap, wrap8.
  apply (wrap_signed_mod 8). lia.
Qed.

(** Writing each decoded plain field back (16-bit fields as
    little-endian pairs, 8-bit fields as single bytes) gives the bytes
    the loader took it from: T1..T3 and P1..P9 at offsets 0..23 of
    block A, H2 at offsets 0..1, H3 at offset 2 and H6 at offset 6 of
    block B, and, for H1, offset 24 of block A. *)
Lemma decode_encode_fields buf1 buf2 c :
  let c' := Bme280.decode_calibration buf1 buf2 c in
  encode16 (dig_T1 c') = slice buf1 0 2 /\
  encode16 (dig_T2 c') = slice buf1 2 2 /\
  encode16 (dig_T3 c') = slice buf1 4 2 /\
  encode16 (dig_P1 c') = slice buf1 6 2 /\
  encode16 (dig_P2 c') = slice buf1 8 2 /\
  encode16 (dig_P3 c') = slice buf1 10 2 /\
  encode16 (dig_P4 c') = slice buf1 12 2 /\
  encode16 (dig_P5 c') = slice buf1 14 2 /\
  encode16 (dig_P6 c') = slice buf1 16 2 /\
  encode16 (dig_P7 c') = slice buf1 18 2 /\
  encode16 (dig_P8 c') = slice buf1 20 2 /\
  encode16 (dig_P9 c') = slice buf1 22 2 /\
  encode8 (dig_H1 c') = slice buf1 24 1 /\
  encode16 (dig_H2 c') = slice buf2 0 2 /\
  encode8 (dig_H3 c') = slice buf2 2 1 /\
  encode8 (dig_H6 c') = slice buf2 6 1.
Proof.
  cbv zeta. unfold Bme280.decode_calibration; cbn [dig_T1 dig_T2 dig_T3 dig_P1 dig_P2 dig_P3
    dig_P4 dig_P5 dig_P6 dig_P7 dig_P8 dig_P9 dig_H1 dig_H2 dig_H3 dig_H6].
  repeat split;
    first [ apply encode16_U16_LE | apply encode16_S16_LE
          | apply encode8_at | apply encode8_wrap8_at ].
Qed.

(** C8.  The round trip holds for T1..T3, P1..P9, H2, H3 and H6, and
    fails for H1.  The loader of either file takes H1 from offset 24 of
    block A, which is register 0xA0, where the specification (and the
    comment beside the assignment) names the 26th byte, register 0xA1.
    On [sample_block_A] the 26th byte holds 0x4B (H1 = 75) and the
    loader decodes H1 = 0, so that writing it back gives 0x00. *)
Theorem decode_H1_off_by_one buf1 buf2 c :
  let c' := Bme280.decode_calibration buf1 buf2 c in
  let s' := Bme280.decode_calibration sample_block_A buf2 c in
  (encode16 (dig_T1 c') = slice buf1 0 2 /\
   encode16 (dig_T2 c') = slice buf1 2 2 /\
   encode16 (dig_T3 c') = slice buf1 4 2 /\
   encode16 (dig_P1 c') = slice buf1 6 2 /\
   encode16 (dig_P2 c') = slice buf1 8 2 /\
   encode16 (dig_P3 c') = slice buf1 10 2 /\
   encode16 (dig_P4 c') = slice buf1 12 2 /\
   encode16 (dig_P5 c') = slice buf1 14 2 /\
   encode16 (dig_P6 c') = slice buf1 16 2 /\
   encode16 (dig_P7 c') = slice buf1 18 2 /\
   encode16 (dig_P8 c') = slice buf1 20 2 /\
   encode16 (dig_P9 c') = slice buf1 22 2 /\
   encode16 (dig_H2 c') = slice buf2 0 2 /\
   encode8 (dig_H3 c') = slice buf2 2 1 /\
   encode8 (dig_H6 c') = slice buf2 6 1) /\
  (encode8 (dig_H1 c') = slice buf1 24 1 /\
   encode8 (dig_H1 (Bpbme280.decode_calib buf1 buf2 c)) = slice buf1 24 1) /\
  (length sample_block_A = 26%nat /\
   slice sample_block_A spec_H1_offset 1 = [Byte.x4b] /\
   dig_T1 s' = 27504 /\ dig_P9 s' = 6000 /\
   dig_H1 s' = 0 /\
   encode8 (dig_H1 s') = [Byte.x00] /\
   encode8 (dig_H1 (Bpbme280.decode_calib sample_block_A buf2 c)) = [Byte.x00]).
Proof.
  cbv zeta. pose proof (decode_encode_fields buf1 buf2 c) as R. cbv zeta in R.
  destruct R as (T1 & T2 & T3 & P1 & P2 & P3 & P4 & P5 & P6 & P7 & P8 & P9
                 & H1 & H2 & H3 & H6).
  split; [repeat split; assumption|].
  split; [split; exact H1|].
  repeat split; vm_compute; reflexivity.
Qed.

(** *** The decoded struct is well typed *)

Lemma U16_LE_range p i : in_uint16 (Bme280.U16_LE p i).
Proof. apply Z.mod_pos_bound. reflexivity. Qed.

Lemma S16_LE_range p i : in_int16 (Bme280.S16_LE p i).
Proof. apply wrap16_range. Qed.

Lemma decode_calibration_wf buf1 buf2 c :
  in_int32 (t_fine c) -> calib_wf (Bme280.decode_calibration buf1 buf2 c).
Proof.
  intros Ht.
  constructor; cbn [Bme280.decode_calibration dig_T1 dig_T2 dig_T3 dig_P1 dig_P2 dig_P3
    dig_P4 dig_P5 dig_P6 dig_P7 dig_P8 dig_P9 dig_H1 dig_H2 dig_H3 dig_H4 dig_H5 dig_H6
    t_fine];
    first [ apply U16_LE_range | apply S16_LE_range | apply wrap16_range
          | apply wrap8_range | apply at_range | exact Ht ].
Qed.

(** *** Atomicity of the load *)

Lemma i2c_read_regs_status {bus} (dev : i2c_dev bus) fd reg buf len :
  fst (fst (Bme280.i2c_read_regs dev fd reg buf len))
  = if delivers dev fd reg len then 0 else -1.
Proof.
  unfold Bme280.i2c_read_regs, delivers, sys_read.
  destruct (dev_write dev fd [reg]) as [w fd1].
  destruct (Z.eqb_spec w 1) as [_|_]; cbn [negb andb fst]; [|reflexivity].
  destruct (dev_read dev fd1 len) as [[bs|] fd2]; cbn [fst].
  - rewrite length_firstn.
    destruct (Nat.leb_spec len (length bs)).
    + rewrite Nat.min_l by lia. now rewrite Z.eqb_refl.
    + rewrite Nat.min_r by lia.
      destruct (Z.eqb_spec (Z.of_nat (length bs)) (Z.of_nat len)); [lia|reflexivity].
  - destruct (Z.eqb_spec (-1) (Z.of_nat len)); [lia|reflexivity].
Qed.

(** When both transfers deliver, the struct is the decoded one. *)
Lemma read_calibration_ok {bus} (dev : i2c_dev bus) fd c :
  let t1 := Bme280.i2c_read_regs dev fd CALIB00 (uninit 26) 26 in
  let t2 := Bme280.i2c_read_regs dev (snd t1) CALIB26 (uninit 7) 7 in
  delivers dev fd CALIB00 26 = true ->
  delivers dev (snd t1) CALIB26 7 = true ->
  Bme280.read_calibration dev fd c
  = (0, Bme280.decode_calibration (snd (fst t1)) (snd (fst t2)) c, snd t2).
Proof.
  cbv zeta. intros D1 D2. unfold Bme280.read_calibration.
  pose proof (i2c_read_regs_status dev fd CALIB00 (uninit 26) 26) as S1.
  rewrite D1 in S1.
  destruct (Bme280.i2c_read_regs dev fd CALIB00 (uninit 26) 26) as [[r1 b1] fd1].
  cbn [fst snd] in *. subst r1. cbn [Z.ltb Z.compare].
  pose proof (i2c_read_regs_status dev fd1 CALIB26 (uninit 7) 7) as S2.
  rewrite D2 in S2.
  destruct (Bme280.i2c_read_regs dev fd1 CALIB26 (uninit 7) 7) as [[r2 b2] fd2].
  cbn [fst snd] in *. subst r2. reflexivity.
Qed.

(** C6. If the transfer of block A (26 bytes) or the transfer of block B
    (7 bytes) fails or comes back short, [read_calibration] returns -1
    and the struct behind [c] is the one it was given: no field has been
    written. *)
Theorem read_calibration_atomic {bus} (dev : i2c_dev bus) fd c :
  let fd1 := snd (Bme280.i2c_read_regs dev fd CALIB00 (uninit 26) 26) in
  delivers dev fd CALIB00 26 = false \/ delivers dev fd1 CALIB26 7 = false ->
  fst (fst (Bme280.read_calibration dev fd c)) = -1 /\
  snd (fst (Bme280.read_calibration dev fd c)) = c.
Proof.
  cbv zeta. intros D. unfold Bme280.read_calibration.
  pose proof (i2c_read_regs_status dev fd CALIB00 (uninit 26) 26) as S1.
  destruct (Bme280.i2c_read_regs dev fd CALIB00 (uninit 26) 26) as [[r1 b1] fd1].
  cbn [fst snd] in *.
  destruct (delivers dev fd CALIB00 26); subst r1; cbn [Z.ltb Z.compare fst snd].
  - destruct D as [D|D]; [discriminate|].
    pose proof (i2c_read_regs_status dev fd1 CALIB26 (uninit 7) 7) as S2.
    rewrite D in S2.
    destruct (Bme280.i2c_read_regs dev fd1 CALIB26 (uninit 7) 7) as [[r2 b2] fd2].
    cbn [fst snd] in *. subst r2. cbn. auto.
  - auto.
Qed.

(** A device whose second read comes back one byte short. *)
Lemma read_calibration_atomic_witness :
  delivers flaky_dev 1%nat CALIB00 26 = true /\
  fst (fst (Bme280.read_calibration flaky_dev 1%nat sample_calib)) = -1 /\
  snd (fst (Bme280.read_calibration flaky_dev 1%nat sample_calib)) = sample_calib.
Proof.
  split; [reflexivity|].
  apply (read_calibration_atomic flaky_dev 1%nat sample_calib).
  right. reflexivity.
Defined.

(** On a register file the load succeeds and decodes registers
    0x88..0xA1 and 0xE1..0xE7. *)
Lemma read_calibration_reg_dev mem ptr c :
  Bme280.read_calibration (reg_dev mem) ptr c
  = (0,
     Bme280.decode_calibration
       (map (fun k => mem (0x88 + Z.of_nat k)) (seq 0 26))
       (map (fun k => mem (0xE1 + Z.of_nat k)) (seq 0 7)) c,
     0xE8).
Proof. reflexivity. Qed.

(** The packing example, through the whole loader: registers 0xE4..0xE6
    holding 0x1E, 0x3F, 0x02. *)
Lemma read_calibration_H4_H5_example mem ptr c :
  mem 0xE4 = Byte.x1e -> mem 0xE5 = Byte.x3f -> mem 0xE6 = Byte.x02 ->
  dig_H4 (snd (fst (Bme280.read_calibration (reg_dev mem) ptr c))) = 495 /\
  dig_H5 (snd (fst (Bme280.read_calibration (reg_dev mem) ptr c))) = 35.
Proof.
  intros E4 E5 E6. rewrite read_calibration_reg_dev. cbn [fst snd].
  unfold Bme280.decode_calibration. cbn [dig_H4 dig_H5].
  unfold at_. cbn [seq map nth Z.of_nat Pos.of_succ_nat Pos.succ Z.add Pos.add Pos.add_carry].
  rewrite E4, E5, E6. split; reflexivity.
Qed.

(** The loader of [bpbme280.c] is the same function. *)
Lemma bme280_read_calib_agree {bus} (dev : i2c_dev bus) fd c :
  Bpbme280.bme280_read_calib dev fd c = Bme280.read_calibration dev fd c.
Proof. reflexivity. Qed.

(** ** Temperature *)

(** C4. With T1=27504, T2=26435, T3=-1000 and adc_T=519888 the routine
    computes var1+var2 = t_fine = 128422, the centi-degree integer
    (t_fine*5+128)>>8 = 2508, and returns 2508/100.0, the double nearest
    to 25.08 (it lies between 25.0625 and 25.09375). *)
Theorem compensate_T_datasheet :
  Bme280.compensate_T_fixed 519888 sample_calib = (2508, set_t_fine sample_calib 128422) /\
  Bme280.compensate_T 519888 sample_calib
  = ((2508 / 100)%float, set_t_fine sample_calib 128422) /\
  dle 25.0625 (fst (Bme280.compensate_T 519888 sample_calib)) /\
  dle (fst (Bme280.compensate_T 519888 sample_calib)) 25.09375.
Proof. vm_compute. repeat split. Qed.

(** *** Monotonicity *)

Lemma div_add_lower a k n : 0 < n -> 0 <= k -> a / n + k / n <= (a + k) / n.
Proof.
  intros Hn Hk. apply Z.div_le_lower_bound; [lia|].
  pose proof (Z.mul_div_le a n Hn). pose proof (Z.mul_div_le k n Hn). lia.
Qed.

Lemma div_sub_lower a b D n :
  0 < n -> b - D <= a -> b / n - D / n - 1 <= a / n.
Proof.
  intros Hn H. apply Z.div_le_lower_bound; [lia|].
  pose proof (Z.mul_div_le b n Hn).
  pose proof (Z.mul_succ_div_gt D n Hn). lia.
Qed.

Lemma t_lin_step c u :
  0 <= dig_T2 c -> t_lin c u + dig_T2 c / 2048 <= t_lin c (u + 1).
Proof.
  intros H2. unfold t_lin.
  replace ((u + 1 - 2 * dig_T1 c) * dig_T2 c)
    with ((u - 2 * dig_T1 c) * dig_T2 c + dig_T2 c) by ring.
  apply div_add_lower; lia.
Qed.

Lemma t_lin_mono c u : 0 <= dig_T2 c -> t_lin c u <= t_lin c (u + 1).
Proof.
  intros H2. pose proof (t_lin_step c u H2).
  assert (0 <= dig_T2 c / 2048) by (apply Z.div_pos; lia). lia.
Qed.

Lemma t_quad_step c x :
  Z.abs (x - dig_T1 c) <= 46340 -> Z.abs (x + 1 - dig_T1 c) <= 46340 ->
  t_quad c x - Z.abs (dig_T3 c) / 512 - 1 <= t_quad c (x + 1).
Proof.
  intros Hd Hd'. unfold t_quad.
  set (d := x - dig_T1 c) in *.
  replace (x + 1 - dig_T1 c) with (d + 1) in * by (unfold d; ring).
  set (q := d * d / 4096). set (q' := (d + 1) * (d + 1) / 4096).
  assert (Hq1 : q - 23 <= q').
  { pose proof (div_sub_lower ((d + 1) * (d + 1)) (d * d) 92681 4096) as L.
    change (92681 / 4096) with 22 in L. unfold q, q'. 
    assert (d * d - 92681 <= (d + 1) * (d + 1)) by lia. lia. }
  assert (Hq2 : q' - 23 <= q).
  { pose proof (div_sub_lower (d * d) ((d + 1) * (d + 1)) 92681 4096) as L.
    change (92681 / 4096) with 22 in L. unfold q, q'.
    assert ((d + 1) * (d + 1) - 92681 <= d * d) by lia. lia. }
  pose proof (div_sub_lower (q' * dig_T3 c) (q * dig_T3 c) (23 * Z.abs (dig_T3 c)) 16384) as L.
  assert (B : 23 * Z.abs (dig_T3 c) / 16384 <= Z.abs (dig_T3 c) / 512).
  { replace (Z.abs (dig_T3 c) / 512) with (32 * Z.abs (dig_T3 c) / (32 * 512))
      by (apply Z.div_mul_cancel_l; lia).
    apply Z.div_le_mono; lia. }
  assert (q * dig_T3 c - 23 * Z.abs (dig_T3 c) <= q' * dig_T3 c) by nia.
  lia.
Qed.

Lemma t_fine_of_step c u :
  T_regular c -> 0 <= u < 131071 -> t_fine_of c u <= t_fine_of c (u + 1).
Proof.
  intros [H1 H3 H2 _ _] Hu. unfold t_fine_of.
  assert (H2' : 0 <= dig_T2 c) by lia.
  pose proof (Z.div_mod u 2 ltac:(lia)) as E.
  pose proof (Z.mod_pos_bound u 2 ltac:(lia)) as M.
  destruct (Z.eq_dec (u mod 2) 0) as [Ev|Od].
  - replace ((u + 1) / 2) with (u / 2).
    + pose proof (t_lin_mono c u H2'). lia.
    + apply Z.div_unique with 1; lia.
  - replace ((u + 1) / 2) with (u / 2 + 1).
    + pose proof (t_lin_step c u H2').
      pose proof (t_quad_step c (u / 2)) as Q.
      assert (S : Z.abs (dig_T3 c) / 512 + 1 <= dig_T2 c / 2048).
      { replace (Z.abs (dig_T3 c) / 512 + 1) with ((4 * Z.abs (dig_T3 c) + 1 * 2048) / 2048).
        - apply Z.div_le_mono; lia.
        - rewrite Z.div_add by lia. f_equal.
          replace 2048 with (4 * 512) by reflexivity.
          apply Z.div_mul_cancel_l; lia. }
      lia.
    + apply Z.div_unique with 0; lia.
Qed.

Lemma t_fine_of_mono c :
  T_regular c -> forall n u, 0 <= u -> u + Z.of_nat n <= 131071 ->
  t_fine_of c u <= t_fine_of c (u + Z.of_nat n).
Proof.
  intros R. induction n as [|n IH]; intros u H0 H1.
  - rewrite Z.add_0_r. lia.
  - rewrite Nat2Z.inj_succ.
    replace (u + Z.succ (Z.of_nat n)) with (u + Z.of_nat n + 1) by lia.
    pose proof (IH u ltac:(lia) ltac:(lia)).
    pose proof (t_fine_of_step c (u + Z.of_nat n) R ltac:(lia)). lia.
Qed.

Lemma t_lin_range c u :
  T_regular c -> 0 <= u <= 131071 ->
  in_int32 ((u - 2 * dig_T1 c) * dig_T2 c) /\ - 2 ^ 20 <= t_lin c u < 2 ^ 20.
Proof.
  intros [H1 H3 H2 Hlo Hhi] Hu.
  assert (0 <= dig_T2 c) by lia.
  assert (B : in_int32 ((u - 2 * dig_T1 c) * dig_T2 c)).
  { unfold in_int32. split.
    - assert ((0 - 2 * dig_T1 c) * dig_T2 c <= (u - 2 * dig_T1 c) * dig_T2 c)
        by (apply Z.mul_le_mono_nonneg_r; lia).
      lia.
    - assert ((u - 2 * dig_T1 c) * dig_T2 c <= (131071 - 2 * dig_T1 c) * dig_T2 c)
        by (apply Z.mul_le_mono_nonneg_r; lia).
      lia. }
  split; [exact B|]. unfold t_lin, in_int32 in *. split.
  - apply Z.div_le_lower_bound; lia.
  - apply Z.div_lt_upper_bound; lia.
Qed.

Lemma t_quad_range c x :
  T_regular c -> 0 <= x <= 65535 ->
  in_int32 ((x - dig_T1 c) * (x - dig_T1 c)) /\
  in_int32 ((x - dig_T1 c) * (x - dig_T1 c) / 4096 * dig_T3 c) /\
  - 2 ^ 17 <= t_quad c x < 2 ^ 17.
Proof.
  intros [H1 H3 H2 Hlo Hhi] Hx.
  set (d := x - dig_T1 c).
  assert (Hd : -46340 <= d <= 46340) by (unfold d; lia).
  assert (Hdd : 0 <= d * d <= 2147395600) by nia.
  assert (Hq : 0 <= d * d / 4096 <= 524266).
  { split; [apply Z.div_pos; lia|].
    change 524266 with (2147395600 / 4096). apply Z.div_le_mono; lia. }
  assert (Hp : -2147393536 <= d * d / 4096 * dig_T3 c <= 2147393536) by nia.
  unfold t_quad. fold d. unfold in_int32. repeat split; try lia.
  - apply Z.div_le_lower_bound; lia.
  - apply Z.div_lt_upper_bound; lia.
Qed.

(** Under [T_regular] no operation of [compensate_T] wraps. *)
Lemma compensate_T_fixed_exact adc_T c :
  T_regular c -> 0 <= adc_T < 2 ^ 20 ->
  Bme280.compensate_T_fixed adc_T c
  = ((t_fine_of c (adc_T / 8) * 5 + 128) / 256,
     set_t_fine c (t_fine_of c (adc_T / 8))).
Proof.
  intros R Ha.
  assert (Hu : 0 <= adc_T / 8 <= 131071).
  { split; [apply Z.div_pos; lia|].
    change 131071 with (1048575 / 8). apply Z.div_le_mono; lia. }
  assert (Hx : 0 <= adc_T / 8 / 2 <= 65535).
  { split; [apply Z.div_pos; lia|].
    change 65535 with (131071 / 2). apply Z.div_le_mono; lia. }
  pose proof (t_lin_range c _ R Hu) as (L1 & L2).
  pose proof (t_quad_range c _ R Hx) as (Q1 & Q2 & Q3).
  destruct R as [H1 H3 H2 Hlo Hhi].
  assert (E16 : adc_T / 16 = adc_T / 8 / 2).
  { rewrite Z.div_div by lia. reflexivity. }
  unfold Bme280.compensate_T_fixed. cbv zeta.
  unfold I32.add, I32.sub, I32.mul, I32.shl, I32.sar.
  cbn [t_fine set_t_fine].
  rewrite !Z.shiftr_div_pow2 by lia.
  rewrite Z.shiftl_mul_pow2 by lia.
  change (2 ^ 3) with 8. change (2 ^ 4) with 16. change (2 ^ 1) with 2.
  change (2 ^ 11) with 2048. change (2 ^ 12) with 4096. change (2 ^ 14) with 16384.
  change (2 ^ 8) with 256.
  rewrite E16.
  rewrite (wrap32_id (dig_T1 c * 2)) by (unfold in_int32; lia).
  replace (dig_T1 c * 2) with (2 * dig_T1 c) by ring.
  rewrite (wrap32_id (adc_T / 8 - 2 * dig_T1 c)) by (unfold in_int32; lia).
  rewrite (wrap32_id ((adc_T / 8 - 2 * dig_T1 c) * dig_T2 c)) by exact L1.
  rewrite (wrap32_id (adc_T / 8 / 2 - dig_T1 c)) by (unfold in_int32; lia).
  rewrite (wrap32_id ((adc_T / 8 / 2 - dig_T1 c) * (adc_T / 8 / 2 - dig_T1 c))) by exact Q1.
  rewrite (wrap32_id (_ / 4096 * dig_T3 c)) by exact Q2.
  fold (t_lin c (adc_T / 8)). fold (t_quad c (adc_T / 8 / 2)).
  fold (t_fine_of c (adc_T / 8)).
  assert (F : - 2 ^ 21 <= t_fine_of c (adc_T / 8) < 2 ^ 21) by (unfold t_fine_of; lia).
  rewrite (wrap32_id (t_fine_of c (adc_T / 8))) by (unfold in_int32; lia).
  rewrite (wrap32_id (t_fine_of c (adc_T / 8) * 5)) by (unfold in_int32; lia).
  rewrite (wrap32_id (t_fine_of c (adc_T / 8) * 5 + 128)) by (unfold in_int32; lia).
  reflexivity.
Qed.

Lemma compensate_T_fixed_range adc_T c :
  T_regular c -> 0 <= adc_T < 2 ^ 20 ->
  -23100 <= fst (Bme280.compensate_T_fixed adc_T c) <= 23100.
Proof.
  intros R Ha. rewrite (compensate_T_fixed_exact adc_T c R Ha). cbn [fst].
  assert (Hu : 0 <= adc_T / 8 <= 131071).
  { split; [apply Z.div_pos; lia|].
    change 131071 with (1048575 / 8). apply Z.div_le_mono; lia. }
  assert (Hx : 0 <= adc_T / 8 / 2 <= 65535).
  { split; [apply Z.div_pos; lia|].
    change 65535 with (131071 / 2). apply Z.div_le_mono; lia. }
  pose proof (t_lin_range c _ R Hu) as (_ & L2).
  pose proof (t_quad_range c _ R Hx) as (_ & _ & Q3).
  assert (F : -1179648 <= t_fine_of c (adc_T / 8) < 1179648) by (unfold t_fine_of; lia).
  split.
  - apply Z.div_le_lower_bound; lia.
  - apply Z.div_le_upper_bound; lia.
Qed.

Lemma compensate_T_fixed_mono c a b :
  T_regular c -> 0 <= a -> a <= b -> b < 2 ^ 20 ->
  fst (Bme280.compensate_T_fixed a c) <= fst (Bme280.compensate_T_fixed b c).
Proof.
  intros R H0 Hab Hb.
  rewrite (compensate_T_fixed_exact a c R) by lia.
  rewrite (compensate_T_fixed_exact b c R) by lia.
  cbn [fst].
  assert (Hu : 0 <= a / 8) by (apply Z.div_pos; lia).
  assert (Hub : a / 8 <= b / 8) by (apply Z.div_le_mono; lia).
  assert (Hb8 : b / 8 <= 131071).
  { change 131071 with (1048575 / 8). apply Z.div_le_mono; lia. }
  pose proof (t_fine_of_mono c R (Z.to_nat (b / 8 - a / 8)) (a / 8) Hu) as M.
  rewrite Z2Nat.id in M by lia.
  replace (a / 8 + (b / 8 - a / 8)) with (b / 8) in M by ring.
  specialize (M Hb8).
  apply Z.div_le_mono; lia.
Qed.

(** [<=] on doubles is transitive: it is the order of the specification
    floats the primitive comparison is specified by. *)
Lemma SFleb_trans x y z : SFleb x y = true -> SFleb y z = true -> SFleb x z = true.
Proof.
  unfold SFleb, SFcompare.
  destruct x as [sx|sx| |sx mx ex], y as [sy|sy| |sy my ey], z as [sz|sz| |sz mz ez];
    try destruct sx; try destruct sy; try destruct sz; simpl; try congruence;
    repeat match goal with
    | |- context [ (?a ?= ?b)%Z ] => destruct (Z.compare_spec a b); simpl
    | |- context [ Pcompare ?a ?b Eq ] =>
        change (Pcompare a b Eq) with (Pos.compare a b);
        destruct (Pos.compare_spec a b); simpl
    end; try congruence; try lia.
Qed.

Lemma dle_trans x y z : dle x y -> dle y z -> dle x z.
Proof. unfold dle. rewrite !leb_spec. apply SFleb_trans. Qed.

Lemma celsius_step_check : all_in (-23100) 23100 celsius_step_ok = true.
Proof. vm_compute. reflexivity. Qed.

Lemma celsius_step n :
  -23100 <= n <= 23100 ->
  dle (double_div n 100) (double_div n 100) /\
  dle (double_div n 100) (double_div (n + 1) 100).
Proof.
  intros Hn.
  pose proof (all_in_spec _ _ _ celsius_step_check n Hn) as H.
  unfold celsius_step_ok in H. apply andb_true_iff in H. exact H.
Qed.

Lemma celsius_mono_nat k : forall n,
  -23100 <= n -> n + Z.of_nat k <= 23100 ->
  dle (double_div n 100) (double_div (n + Z.of_nat k) 100).
Proof.
  induction k as [|k IH]; intros n Hlo Hhi.
  - rewrite Z.add_0_r. apply celsius_step. lia.
  - rewrite Nat2Z.inj_succ.
    replace (n + Z.succ (Z.of_nat k)) with (n + Z.of_nat k + 1) by lia.
    apply dle_trans with (double_div (n + Z.of_nat k) 100).
    + apply IH; lia.
    + apply celsius_step. lia.
Qed.

Lemma celsius_mono a b :
  -23100 <= a -> a <= b -> b <= 23100 ->
  dle (double_div a 100) (double_div b 100).
Proof.
  intros Ha Hab Hb.
  replace b with (a + Z.of_nat (Z.to_nat (b - a))) by (rewrite Z2Nat.id; lia).
  apply celsius_mono_nat; [lia|]. rewrite Z2Nat.id; lia.
Qed.

Lemma compensate_T_value adc_T c :
  fst (Bme280.compensate_T adc_T c)
  = double_div (fst (Bme280.compensate_T_fixed adc_T c)) 100.
Proof.
  unfold Bme280.compensate_T.
  destruct (Bme280.compensate_T_fixed adc_T c) as [T c']. reflexivity.
Qed.

(** C7, amended.  For a calibration set that is [T_regular] (no 32-bit
    intermediate can overflow on 20-bit raw values, and dig_T2 dominates
    dig_T3) and raw values 0 <= a <= b < 2^20, the temperature returned
    for [a] is at most the one returned for [b]. *)
Theorem compensate_T_monotonic c a b :
  T_regular c -> 0 <= a -> a <= b -> b < 2 ^ 20 ->
  dle (fst (Bme280.compensate_T a c)) (fst (Bme280.compensate_T b c)).
Proof.
  intros R H0 Hab Hb.
  rewrite !compensate_T_value.
  pose proof (compensate_T_fixed_range a c R ltac:(lia)).
  pose proof (compensate_T_fixed_range b c R ltac:(lia)).
  apply celsius_mono; try lia.
  apply compensate_T_fixed_mono; assumption.
Qed.

(** The spec's calibration set is [T_regular]; two raw values eight
    apart. *)
Lemma compensate_T_monotonic_witness :
  dle (fst (Bme280.compensate_T 519888 sample_calib))
      (fst (Bme280.compensate_T 519896 sample_calib)).
Proof.
  apply (compensate_T_monotonic sample_calib 519888 519896).
  - constructor; cbn; lia.
  - lia.
  - lia.
  - lia.
Defined.

(** C7 as stated fails.  [falling_calib] is a calibration set the loader
    can produce (dig_T2 = -26435 is an int16_t); 400000 <= 600000, yet
    the routine returns 12.61 for the first and -50.69 for the second. *)
Lemma compensate_T_not_monotonic :
  400000 <= 600000 /\
  fst (Bme280.compensate_T 400000 falling_calib) = (1261 / 100)%float /\
  fst (Bme280.compensate_T 600000 falling_calib) = (-5069 / 100)%float /\
  PrimFloat.leb (fst (Bme280.compensate_T 400000 falling_calib))
                (fst (Bme280.compensate_T 600000 falling_calib)) = false.
Proof. split; [lia|]. vm_compute. repeat split. Qed.

(** Wrap-around alone breaks monotonicity, even with positive
    coefficients: on [steep_calib] the product
    [((adc_T >> 3) - 2*dig_T1) * dig_T2] passes 2^31 between the two raw
    values. *)
Lemma compensate_T_overflow_example :
  fst (Bme280.compensate_T_fixed 520000 steep_calib) = 20312 /\
  fst (Bme280.compensate_T_fixed 530000 steep_calib) = -20258.
Proof. vm_compute. split; reflexivity. Qed.

(** ** Pressure: the zero guard and the division *)

Lemma I64_div_some a b :
  b <> 0 -> ~ (a = - 2 ^ 63 /\ b = -1) -> I64.div a b = Some (Z.quot a b).
Proof.
  intros Hb Ho. unfold I64.div.
  destruct (Z.eqb_spec b 0) as [E0|_]; [contradiction|]. cbn [orb].
  destruct (Z.eqb_spec a (- 2 ^ 63)) as [Ea|_]; cbn [andb]; [|reflexivity].
  destruct (Z.eqb_spec b (-1)) as [Eb|_]; [|reflexivity].
  exfalso. apply Ho. split; assumption.
Qed.

Lemma I64_div_overflow : I64.div (- 2 ^ 63) (-1) = None.
Proof. reflexivity. Qed.

Lemma compensate_P_at_zero adc_P c :
  fst (Bme280.compensate_P_terms c) = 0 ->
  Bme280.compensate_P adc_P c = (Some 0%float, c).
Proof.
  unfold Bme280.compensate_P.
  destruct (Bme280.compensate_P_terms c) as [var1 var2]. cbn [fst].
  intros ->. reflexivity.
Qed.

Lemma compensate_P_at_nonzero adc_P c :
  let var1 := fst (Bme280.compensate_P_terms c) in
  let var2 := snd (Bme280.compensate_P_terms c) in
  let p := (1048576 - adc_P)%i32 in
  let d := (((p << 31) - var2) * 3125)%i64 in
  var1 <> 0 -> ~ (d = - 2 ^ 63 /\ var1 = -1) ->
  let q := Z.quot d var1 in
  let p := (((q + ((dig_P9 c * (q >> 13) * (q >> 13)) >> 25) + ((dig_P8 c * q) >> 19)) >> 8)
            + (dig_P7 c << 4))%i64 in
  Bme280.compensate_P adc_P c = (Some (double_div p 25600), c).
Proof.
  cbv zeta. unfold Bme280.compensate_P.
  destruct (Bme280.compensate_P_terms c) as [var1 var2]. cbn [fst snd].
  intros Hv Ho. destruct (Z.eqb_spec var1 0) as [E0|_]; [contradiction|].
  unfold Bme280.compensate_P_fixed. cbv zeta.
  rewrite (I64_div_some _ _ Hv Ho). reflexivity.
Qed.

Lemma compensate_P_at_overflow adc_P c :
  let var1 := fst (Bme280.compensate_P_terms c) in
  let var2 := snd (Bme280.compensate_P_terms c) in
  let p := (1048576 - adc_P)%i32 in
  let d := (((p << 31) - var2) * 3125)%i64 in
  d = - 2 ^ 63 -> var1 = -1 -> fst (Bme280.compensate_P adc_P c) = None.
Proof.
  cbv zeta. unfold Bme280.compensate_P.
  destruct (Bme280.compensate_P_terms c) as [var1 var2]. cbn [fst snd].
  intros Hd ->. cbn [Z.eqb]. unfold Bme280.compensate_P_fixed. cbv zeta.
  rewrite Hd, I64_div_overflow. reflexivity.
Qed.

(** C3, amended.  When the [var1] it has computed is zero,
    [compensate_P] returns exactly 0.0 and divides nothing.  Otherwise
    it divides the 64-bit dividend [d] by [var1]: when the quotient is
    an [int64_t] the chain runs to its end and the result is the Q4.4
    integer [p], converted to double and divided by 25600.0; when
    [var1] is -1 and [d] is INT64_MIN the division has no value.  The
    struct is returned as it came. *)
Theorem compensate_P_zero_guard adc_P c :
  let var1 := fst (Bme280.compensate_P_terms c) in
  let var2 := snd (Bme280.compensate_P_terms c) in
  let p := (1048576 - adc_P)%i32 in
  let d := (((p << 31) - var2) * 3125)%i64 in
  (var1 = 0 -> Bme280.compensate_P adc_P c = (Some 0%float, c)) /\
  (var1 <> 0 -> ~ (d = - 2 ^ 63 /\ var1 = -1) ->
   let q := Z.quot d var1 in
   let p := (((q + ((dig_P9 c * (q >> 13) * (q >> 13)) >> 25) + ((dig_P8 c * q) >> 19)) >> 8)
             + (dig_P7 c << 4))%i64 in
   Bme280.compensate_P adc_P c = (Some (double_div p 25600), c)) /\
  (d = - 2 ^ 63 -> var1 = -1 -> fst (Bme280.compensate_P adc_P c) = None).
Proof.
  cbv zeta. split; [apply compensate_P_at_zero|].
  split; [apply compensate_P_at_nonzero|apply compensate_P_at_overflow].
Qed.

(** Both branches are taken: [var1] is zero on [degenerate_calib]; on
    the end-to-end scenario it is 597560748, the quotient is an
    [int64_t] and the result is 25767233/25600 hPa. *)
Lemma compensate_P_zero_guard_witness :
  Bme280.compensate_P 415148 degenerate_calib = (Some 0%float, degenerate_calib) /\
  Bme280.compensate_P 415148 (set_t_fine sample_calib 128422)
  = (Some (double_div 25767233 25600), set_t_fine sample_calib 128422).
Proof.
  split.
  - apply (proj1 (compensate_P_zero_guard 415148 degenerate_calib)).
    vm_compute. reflexivity.
  - apply (proj1 (proj2 (compensate_P_zero_guard 415148 (set_t_fine sample_calib 128422)))).
    + vm_compute. discriminate.
    + vm_compute. intros [H _]. discriminate H.
Defined.

(** C3 as stated fails: "for all other inputs it completes" does not
    hold.  [overflow_calib] keeps every field within its C type and
    [adc_P = 1048574] is a 20-bit sample; [var1] is -1, the dividend is
    INT64_MIN, and the division of either file has no value. *)
Lemma compensate_P_division_overflows :
  calib_wf overflow_calib /\
  fst (Bme280.compensate_P_terms overflow_calib) = -1 /\
  ((((1048576 - 1048574)%i32 << 31) - snd (Bme280.compensate_P_terms overflow_calib))
   * 3125)%i64 = - 2 ^ 63 /\
  fst (Bme280.compensate_P 1048574 overflow_calib) = None /\
  fst (Bpbme280.bme280_comp_P 1048574 overflow_calib) = None.
Proof.
  split.
  { constructor; cbn;
      unfold in_uint16, in_int16, in_uint8, in_int8, in_int32; lia. }
  split; [vm_compute; reflexivity|].
  split; [vm_compute; reflexivity|].
  split; vm_compute; reflexivity.
Qed.

(** On the end-to-end scenario the result is 25767233/25600 hPa. *)
Lemma compensate_P_sample :
  Bme280.compensate_P 415148 (set_t_fine sample_calib 128422)
  = (Some (25767233 / 25600)%float, set_t_fine sample_calib 128422).
Proof. vm_compute. reflexivity. Qed.

(** The same guard stands in the copy of [bpbme280.c]. *)
Lemma bme280_comp_P_zero_guard adc_P c :
  fst (Bpbme280.bme280_comp_P_terms c) = 0 ->
  Bpbme280.bme280_comp_P adc_P c = (Some 0%float, c).
Proof.
  rewrite comp_P_agree, comp_P_terms_agree. apply compensate_P_at_zero.
Qed.

(** ** Humidity: the clamp *)

Lemma humidity_scale_check : all_in 0 102400 humidity_scale_ok = true.
Proof. vm_compute. reflexivity. Qed.

Lemma compensate_H_fixed_range adc_H c :
  0 <= Bme280.compensate_H_fixed adc_H c <= 419430400.
Proof.
  unfold Bme280.compensate_H_fixed. cbv zeta.
  destruct (Z.ltb_spec (Bme280.compensate_H_raw adc_H c) 0).
  - cbn. lia.
  - destruct (Z.gtb_spec (Bme280.compensate_H_raw adc_H c) 419430400); lia.
Qed.

Lemma humidity_scale_sound n :
  0 <= n <= 102400 ->
  dle 0 (double_div n 1024) /\
  dle (double_div n 1024) 100 /\
  dle (double_div n 1024) 400.
Proof.
  intros Hn.
  pose proof (all_in_spec 0 102400 humidity_scale_ok humidity_scale_check n Hn) as H.
  unfold humidity_scale_ok in H. cbv zeta in H.
  apply andb_true_iff in H as [H H400]. apply andb_true_iff in H as [H0 H100].
  unfold dle. auto.
Qed.

Lemma compensate_H_shifted_range adc_H c :
  0 <= (Bme280.compensate_H_fixed adc_H c >> 12)%i32 <= 102400.
Proof.
  pose proof (compensate_H_fixed_range adc_H c) as [Hlo Hhi].
  unfold I32.sar. rewrite Z.shiftr_div_pow2 by lia.
  assert (0 <= Bme280.compensate_H_fixed adc_H c / 2 ^ 12) by (apply Z.div_pos; lia).
  assert (Bme280.compensate_H_fixed adc_H c / 2 ^ 12 <= 419430400 / 2 ^ 12)
    by (apply Z.div_le_mono; lia).
  change (419430400 / 2 ^ 12) with 102400 in *. lia.
Qed.

Lemma compensate_H_value adc_H c :
  fst (Bme280.compensate_H adc_H c)
  = double_div (Bme280.compensate_H_fixed adc_H c >> 12)%i32 1024.
Proof. reflexivity. Qed.

(** C2. Whatever the calibration, [t_fine] and raw value, the 32-bit
    intermediate is clamped into [0, 419430400] before it is shifted
    right by 12 and divided by 1024.0, and the double returned lies in
    [0.0, 400.0] = [0.0, 409600.0/1024.0]. *)
Theorem compensate_H_range adc_H c :
  0 <= Bme280.compensate_H_fixed adc_H c <= 419430400 /\
  fst (Bme280.compensate_H adc_H c)
  = double_div (Bme280.compensate_H_fixed adc_H c >> 12)%i32 1024 /\
  dle 0 (fst (Bme280.compensate_H adc_H c)) /\
  dle (fst (Bme280.compensate_H adc_H c)) 400 /\
  (409600 / 1024)%float = 400%float.
Proof.
  pose proof (humidity_scale_sound _ (compensate_H_shifted_range adc_H c))
    as (H0 & _ & H400).
  rewrite (compensate_H_value adc_H c).
  split; [apply compensate_H_fixed_range|].
  split; [reflexivity|].
  split; [exact H0|]. split; [exact H400|]. vm_compute. reflexivity.
Qed.

(** The clamp in fact keeps the result within [0.0, 100.0]. *)
Lemma compensate_H_percent adc_H c :
  dle 0 (fst (Bme280.compensate_H adc_H c)) /\
  dle (fst (Bme280.compensate_H adc_H c)) 100.
Proof.
  pose proof (humidity_scale_sound _ (compensate_H_shifted_range adc_H c))
    as (H0 & H100 & _).
  rewrite (compensate_H_value adc_H c). split; assumption.
Qed.

(** The copy in [bpbme280.c] clamps alike, so its result too lies in
    [0.0, 100.0], though it is not the sibling's result. *)
Lemma bme280_comp_H_percent adc_H c :
  dle 0 (fst (Bpbme280.bme280_comp_H adc_H c)) /\
  dle (fst (Bpbme280.bme280_comp_H adc_H c)) 100.
Proof.
  assert (R : 0 <= Bpbme280.bme280_comp_H_fixed adc_H c <= 419430400).
  { unfold Bpbme280.bme280_comp_H_fixed. cbv zeta.
    destruct (Z.ltb_spec (Bpbme280.bme280_comp_H_raw adc_H c) 0).
    - cbn. lia.
    - destruct (Z.gtb_spec (Bpbme280.bme280_comp_H_raw adc_H c) 419430400); lia. }
  assert (S : 0 <= (Bpbme280.bme280_comp_H_fixed adc_H c >> 12)%i32 <= 102400).
  { unfold I32.sar. rewrite Z.shiftr_div_pow2 by lia.
    assert (0 <= Bpbme280.bme280_comp_H_fixed adc_H c / 2 ^ 12) by (apply Z.div_pos; lia).
    assert (Bpbme280.bme280_comp_H_fixed adc_H c / 2 ^ 12 <= 419430400 / 2 ^ 12)
      by (apply Z.div_le_mono; lia).
    change (419430400 / 2 ^ 12) with 102400 in *. lia. }
  pose proof (humidity_scale_sound _ S) as (H0 & H100 & _).
  assert (E : fst (Bpbme280.bme280_comp_H adc_H c)
              = double_div (Bpbme280.bme280_comp_H_fixed adc_H c >> 12)%i32 1024)
    by reflexivity.
  rewrite E. split; assumption.
Qed.

(** ** Frame of the compensation routines *)

Lemma coefficients_set_t_fine c v : coefficients (set_t_fine c v) = coefficients c.
Proof. reflexivity. Qed.

Lemma compensate_T_writes adc_T c :
  exists v, in_int32 v /\ snd (Bme280.compensate_T adc_T c) = set_t_fine c v.
Proof.
  unfold Bme280.compensate_T, Bme280.compensate_T_fixed. cbv zeta. cbn [snd].
  eexists. split; [|reflexivity]. apply wrap32_range.
Qed.

Lemma compensate_P_keeps adc_P c : snd (Bme280.compensate_P adc_P c) = c.
Proof.
  unfold Bme280.compensate_P.
  destruct (Bme280.compensate_P_terms c) as [var1 var2].
  destruct (var1 =? 0); [reflexivity|].
  destruct (Bme280.compensate_P_fixed adc_P c var1 var2); reflexivity.
Qed.

Lemma compensate_H_keeps adc_H c : snd (Bme280.compensate_H adc_H c) = c.
Proof. unfold Bme280.compensate_H. reflexivity. Qed.

(** C10. [compensate_P] and [compensate_H] return the struct untouched,
    [t_fine] included; [compensate_T] changes nothing but [t_fine]: all
    the coefficient fields (T1..T3, P1..P9, H1..H6) keep their values. *)
Theorem compensation_frame adc c :
  snd (Bme280.compensate_P adc c) = c /\
  snd (Bme280.compensate_H adc c) = c /\
  coefficients (snd (Bme280.compensate_T adc c)) = coefficients c /\
  exists v, snd (Bme280.compensate_T adc c) = set_t_fine c v.
Proof.
  split; [apply compensate_P_keeps|].
  split; [apply compensate_H_keeps|].
  destruct (compensate_T_writes adc c) as (v & _ & E).
  rewrite E. split; [apply coefficients_set_t_fine|].
  exists v. reflexivity.
Qed.

(** ** The division after a load and a temperature step *)

Lemma wrap64_id z : in_int64 z -> wrap64 z = z.
Proof. intros H. apply wrap_signed_id; [lia|exact H]. Qed.

Lemma sar_int32_range z n :
  0 <= n <= 31 -> in_int32 z -> - 2 ^ (31 - n) <= Z.shiftr z n < 2 ^ (31 - n).
Proof.
  intros Hn [Hl Hu]. rewrite Z.shiftr_div_pow2 by lia.
  assert (P : 0 < 2 ^ n) by (apply Z.pow_pos_nonneg; lia).
  assert (E : 2 ^ 31 = 2 ^ (31 - n) * 2 ^ n).
  { rewrite <- Z.pow_add_r by lia. f_equal. lia. }
  split.
  - apply Z.div_le_lower_bound; [exact P|]. lia.
  - apply Z.div_lt_upper_bound; [exact P|]. lia.
Qed.

(** Whatever the raw value and the coefficients, the [t_fine] that
    [compensate_T] stores lies within -2^20 - 2^17 and 2^20 + 2^17: it
    is the sum of a 32-bit value shifted right by 11 and of one shifted
    right by 14. *)
Lemma compensate_T_t_fine_range adc_T c :
  - 1179648 <= t_fine (snd (Bme280.compensate_T adc_T c)) < 1179648.
Proof.
  unfold Bme280.compensate_T, Bme280.compensate_T_fixed. cbv zeta.
  cbn [snd set_t_fine t_fine].
  match goal with
  | |- _ <= I32.add (I32.sar (I32.mul ?a ?b) 11) (I32.sar (I32.mul ?x ?y) 14) < _ =>
      pose proof (sar_int32_range (wrap32 (a * b)) 11 ltac:(lia) (wrap32_range _)) as H1;
      pose proof (sar_int32_range (wrap32 (x * y)) 14 ltac:(lia) (wrap32_range _)) as H2;
      change (I32.sar (I32.mul a b) 11) with (Z.shiftr (wrap32 (a * b)) 11);
      change (I32.sar (I32.mul x y) 14) with (Z.shiftr (wrap32 (x * y)) 14)
  end.
  change (2 ^ (31 - 11)) with 1048576 in H1. change (2 ^ (31 - 14)) with 131072 in H2.
  unfold I32.add. rewrite wrap32_id by (unfold in_int32; lia). lia.
Qed.

(** An odd multiple of an [int64_t] other than INT64_MIN does not wrap
    to INT64_MIN. *)
Lemma dividend_not_min x :
  - 2 ^ 63 < x < 2 ^ 63 -> wrap64 (x * 3125) <> - 2 ^ 63.
Proof.
  intros Hx E. unfold wrap64, wrap_signed in E.
  change (2 ^ (64 - 1)) with (2 ^ 63) in E.
  assert (M : (x * 3125 + 2 ^ 63) mod 2 ^ 64 = 0) by lia.
  apply Z.mod_divide in M; [|lia]. destruct M as [k M].
  assert (D : (2 ^ 63 | 3125 * x)).
  { exists (2 * k - 1). lia. }
  apply Z.gauss in D; [|reflexivity].
  destruct D as [j D]. assert (j = 0) by nia. subst j. lia.
Qed.

Lemma compensate_P_terms_var2_range c :
  in_int16 (dig_P4 c) -> in_int16 (dig_P5 c) -> in_int16 (dig_P6 c) ->
  - 2 ^ 21 <= t_fine c < 2 ^ 21 ->
  - 2 ^ 60 < snd (Bme280.compensate_P_terms c) < 2 ^ 60.
Proof.
  unfold in_int16. intros H4 H5 H6 Ht.
  unfold Bme280.compensate_P_terms. cbv zeta. cbn [snd].
  unfold I64.add, I64.sub, I64.mul, I64.shl.
  rewrite !Z.shiftl_mul_pow2 by lia.
  set (u := t_fine c - 128000).
  assert (Hu : - 2 ^ 22 < u < 2 ^ 22) by (unfold u; lia).
  rewrite (wrap64_id u) by (unfold in_int64; lia).
  assert (Huu : 0 <= u * u < 2 ^ 44) by nia.
  rewrite (wrap64_id (u * u)) by (unfold in_int64; lia).
  assert (H1 : - 2 ^ 59 <= u * u * dig_P6 c <= 2 ^ 59) by nia.
  rewrite (wrap64_id (u * u * dig_P6 c)) by (unfold in_int64; lia).
  assert (H2 : - 2 ^ 37 <= u * dig_P5 c <= 2 ^ 37) by nia.
  rewrite (wrap64_id (u * dig_P5 c)) by (unfold in_int64; lia).
  rewrite (wrap64_id (u * dig_P5 c * 2 ^ 17)) by (unfold in_int64; lia).
  rewrite (wrap64_id (dig_P4 c * 2 ^ 35)) by (unfold in_int64; lia).
  rewrite (wrap64_id (u * u * dig_P6 c + u * dig_P5 c * 2 ^ 17))
    by (unfold in_int64; lia).
  rewrite wrap64_id by (unfold in_int64; lia).
  lia.
Qed.

Lemma compensate_P_dividend_not_min adc_P var2 :
  - 2 ^ 60 < var2 < 2 ^ 60 ->
  ((((1048576 - adc_P)%i32 << 31) - var2) * 3125)%i64 <> - 2 ^ 63.
Proof.
  intros Hv. unfold I64.mul, I64.sub, I64.shl, I32.sub.
  pose proof (wrap32_range (1048576 - adc_P)) as Hp. unfold in_int32 in Hp.
  set (p := wrap32 (1048576 - adc_P)) in *.
  rewrite Z.shiftl_mul_pow2 by lia.
  rewrite (wrap64_id (p * 2 ^ 31)) by (unfold in_int64; lia).
  rewrite (wrap64_id (p * 2 ^ 31 - var2)) by (unfold in_int64; lia).
  apply dividend_not_min. lia.
Qed.

(** With pressure coefficients of their C type and a [t_fine] as
    [compensate_T] stores it, the division of [compensate_P] has a
    value. *)
Lemma compensate_P_defined adc_P c :
  in_int16 (dig_P4 c) -> in_int16 (dig_P5 c) -> in_int16 (dig_P6 c) ->
  - 2 ^ 21 <= t_fine c < 2 ^ 21 ->
  exists p, fst (Bme280.compensate_P adc_P c) = Some p.
Proof.
  intros H4 H5 H6 Ht.
  pose proof (compensate_P_terms_var2_range c H4 H5 H6 Ht) as Hv.
  pose proof (compensate_P_dividend_not_min adc_P _ Hv) as Hd.
  destruct (Z.eq_dec (fst (Bme280.compensate_P_terms c)) 0) as [E|E].
  - rewrite (compensate_P_at_zero adc_P c E). eexists. reflexivity.
  - pose proof (compensate_P_at_nonzero adc_P c) as N. cbv zeta in N.
    rewrite (N E); [eexists; reflexivity|].
    intros [K _]. exact (Hd K).
Qed.

Lemma compensate_P_after_load adc_T adc_P buf1 buf2 c :
  exists p,
    fst (Bme280.compensate_P adc_P
           (snd (Bme280.compensate_T adc_T (Bme280.decode_calibration buf1 buf2 c))))
    = Some p.
Proof.
  pose proof (compensate_T_t_fine_range adc_T (Bme280.decode_calibration buf1 buf2 c))
    as Ht.
  destruct (compensate_T_writes adc_T (Bme280.decode_calibration buf1 buf2 c))
    as (v & _ & E).
  rewrite E in Ht |- *. cbn [set_t_fine t_fine] in Ht.
  apply compensate_P_defined;
    cbn [set_t_fine Bme280.decode_calibration dig_P4 dig_P5 dig_P6 t_fine];
    [apply S16_LE_range..|lia].
Qed.

(** ** The rest of the drivers *)

(** *** Single-register transfers and configuration *)

Lemma sys_read_one {bus} (dev : i2c_dev bus) fd val :
  sys_read dev fd [val] 1
  = match dev_read dev fd 1 with
    | (None, fd') => (-1, [val], fd')
    | (Some [], fd') => (0, [val], fd')
    | (Some (b :: _), fd') => (1, [b], fd')
    end.
Proof.
  unfold sys_read. destruct (dev_read dev fd 1) as [[[|b bs]|] fd']; reflexivity.
Qed.

Lemma i2c_read_reg_cases {bus} (dev : i2c_dev bus) fd reg val :
  Bme280.i2c_read_reg dev fd reg val
  = let '(w, fd1) := dev_write dev fd [reg] in
    if negb (w =? 1) then (-1, val, fd1) else
    match dev_read dev fd1 1 with
    | (Some (b :: _), fd2) => (0, b, fd2)
    | (_, fd2) => (-1, val, fd2)
    end.
Proof.
  unfold Bme280.i2c_read_reg.
  destruct (dev_write dev fd [reg]) as [w fd1].
  destruct (negb (w =? 1)); [reflexivity|].
  rewrite sys_read_one.
  destruct (dev_read dev fd1 1) as [[[|b bs]|] fd2]; reflexivity.
Qed.

(** X1. [i2c_read_reg] returns 0 exactly when the register select is
    acknowledged and the read hands over a byte, and -1 otherwise; after a
    failure [*val] still holds what it held, after a success it holds the
    first byte the device handed over. *)
Theorem i2c_read_reg_result {bus} (dev : i2c_dev bus) fd reg val :
  let res := Bme280.i2c_read_reg dev fd reg val in
  let fd1 := snd (dev_write dev fd [reg]) in
  fst (fst res) = (if delivers dev fd reg 1 then 0 else -1) /\
  (delivers dev fd reg 1 = false -> snd (fst res) = val) /\
  (delivers dev fd reg 1 = true ->
   exists b bs, fst (dev_read dev fd1 1) = Some (b :: bs) /\ snd (fst res) = b).
Proof.
  cbv zeta. rewrite i2c_read_reg_cases. unfold delivers.
  destruct (dev_write dev fd [reg]) as [w fd1]. cbn [snd].
  destruct (Z.eqb_spec w 1) as [_|_]; cbn [negb andb fst snd].
  - destruct (dev_read dev fd1 1) as [[[|b bs]|] fd2]; cbn [fst snd length Nat.leb];
      (split; [reflexivity|]); split; intros H; try discriminate H; try reflexivity.
    exists b, bs. auto.
  - split; [reflexivity|]. split; intros H; [reflexivity|discriminate H].
Qed.

Lemma i2c_write_reg_agree {bus} (dev : i2c_dev bus) fd reg val :
  Bpbme280.i2c_write_reg dev fd reg val = Bme280.i2c_write_reg dev fd reg val.
Proof.
  unfold Bpbme280.i2c_write_reg, Bme280.i2c_write_reg. cbv zeta.
  destruct (dev_write dev fd [reg; val]) as [w fd1].
  destruct (w =? 2); reflexivity.
Qed.

Lemma i2c_read_reg_agree {bus} (dev : i2c_dev bus) fd reg val :
  Bpbme280.i2c_read_reg dev fd reg val = Bme280.i2c_read_reg dev fd reg val.
Proof.
  unfold Bpbme280.i2c_read_reg, Bme280.i2c_read_reg.
  destruct (dev_write dev fd [reg]) as [w fd1].
  destruct (negb (w =? 1)); [reflexivity|].
  destruct (sys_read dev fd1 [val] 1) as [[r buf] fd2].
  destruct (r =? 1); reflexivity.
Qed.

Lemma i2c_write_reg_is_i2c_write {bus} (dev : i2c_dev bus) fd reg val :
  Bme280.i2c_write_reg dev fd reg val = Bme280.i2c_write dev fd [reg; val].
Proof.
  unfold Bme280.i2c_write_reg, Bme280.i2c_write. cbv zeta.
  destruct (dev_write dev fd [reg; val]) as [w fd1]. cbn [length Z.of_nat Pos.of_succ_nat Pos.succ].
  destruct (w =? 2); reflexivity.
Qed.

Lemma configure_agree {bus} (dev : i2c_dev bus) fd :
  Bpbme280.bme280_configure dev fd = Bme280.configure_bme280 dev fd.
Proof.
  unfold Bpbme280.bme280_configure, Bme280.configure_bme280.
  rewrite !i2c_write_reg_agree.
  destruct (Bme280.i2c_write_reg dev fd REG_CTRL_HUM Byte.x01) as [r1 fd1].
  destruct (r1 <? 0); [reflexivity|].
  rewrite !i2c_write_reg_agree.
  destruct (Bme280.i2c_write_reg dev fd1 REG_CTRL_MEAS Byte.x27) as [r2 fd2].
  destruct (r2 <? 0); [reflexivity|].
  rewrite !i2c_write_reg_agree. reflexivity.
Qed.

Lemma read_raw_agree {bus} (dev : i2c_dev bus) fd adc :
  Bpbme280.bme280_read_raw dev fd adc = Bme280.read_raw_data dev fd adc.
Proof. reflexivity. Qed.


(** *** Raw samples *)

Lemma raw20 b0 b1 b2 :
  0 <= b0 < 256 -> 0 <= b1 < 256 -> 0 <= b2 < 256 ->
  Z.lor (Z.lor (b0 << 12)%i32 (b1 << 4)%i32) (b2 >> 4)%i32
  = b0 * 4096 + b1 * 16 + b2 / 16.
Proof.
  intros H0 H1 H2. unfold I32.shl, I32.sar.
  rewrite !Z.shiftl_mul_pow2, Z.shiftr_div_pow2 by lia.
  change (2 ^ 12) with 4096. change (2 ^ 4) with 16.
  rewrite !wrap32_id by (unfold in_int32; lia).
  assert (0 <= b2 / 16 < 16).
  { split; [apply Z.div_pos; lia|apply Z.div_lt_upper_bound; lia]. }
  rewrite (Z.lor_comm (b0 * 4096)).
  replace (b0 * 4096) with (Z.shiftl b0 12) by (rewrite Z.shiftl_mul_pow2; lia).
  rewrite lor_shift_add by lia. change (2 ^ 12) with 4096.
  rewrite Z.lor_comm.
  replace (b1 * 16 + b0 * 4096) with (Z.shiftl (b1 + b0 * 256) 4)
    by (rewrite Z.shiftl_mul_pow2; lia).
  rewrite lor_shift_add by lia. change (2 ^ 4) with 16.
  rewrite Z.shiftl_mul_pow2 by lia. change (2 ^ 12) with 4096. lia.
Qed.

Lemma raw16 b0 b1 :
  0 <= b0 < 256 -> 0 <= b1 < 256 -> Z.lor (b0 << 8)%i32 b1 = b0 * 256 + b1.
Proof.
  intros H0 H1. rewrite shl8_byte by lia. rewrite Z.lor_comm.
  rewrite lor_shift_add by lia. lia.
Qed.

Lemma decode_raw_value data :
  Bme280.decode_raw data
  = (at_ data 3 * 4096 + at_ data 4 * 16 + at_ data 5 / 16,
     at_ data 0 * 4096 + at_ data 1 * 16 + at_ data 2 / 16,
     at_ data 6 * 256 + at_ data 7).
Proof.
  unfold Bme280.decode_raw. cbv zeta.
  rewrite !raw20, raw16 by apply at_range. reflexivity.
Qed.

Lemma decode_raw_range data :
  let '(adc_T, adc_P, adc_H) := Bme280.decode_raw data in
  0 <= adc_T < 2 ^ 20 /\ 0 <= adc_P < 2 ^ 20 /\ 0 <= adc_H < 2 ^ 16.
Proof.
  rewrite decode_raw_value.
  pose proof (at_range data 0). pose proof (at_range data 1).
  pose proof (at_range data 2). pose proof (at_range data 3).
  pose proof (at_range data 4). pose proof (at_range data 5).
  pose proof (at_range data 6). pose proof (at_range data 7).
  assert (0 <= at_ data 2 / 16 < 16).
  { split; [apply Z.div_pos; lia|apply Z.div_lt_upper_bound; lia]. }
  assert (0 <= at_ data 5 / 16 < 16).
  { split; [apply Z.div_pos; lia|apply Z.div_lt_upper_bound; lia]. }
  lia.
Qed.

(** X5. Whatever the device, a sample that [read_raw_data] reports as
    read (status 0) has a 20-bit temperature, a 20-bit pressure and a
    16-bit humidity value, all non-negative. *)
Theorem read_raw_data_range {bus} (dev : i2c_dev bus) fd adc :
  fst (fst (Bme280.read_raw_data dev fd adc)) = 0 ->
  let '(adc_T, adc_P, adc_H) := snd (fst (Bme280.read_raw_data dev fd adc)) in
  0 <= adc_T < 2 ^ 20 /\ 0 <= adc_P < 2 ^ 20 /\ 0 <= adc_H < 2 ^ 16.
Proof.
  unfold Bme280.read_raw_data. cbv zeta.
  destruct (Bme280.i2c_read_regs dev fd REG_PRESS_MSB (uninit 8) 8) as [[r data] fd1].
  destruct (r <? 0); cbn [fst snd]; [discriminate|].
  intros _. apply decode_raw_range.
Qed.

Lemma read_raw_data_reg_dev mem ptr adc :
  Bme280.read_raw_data (reg_dev mem) ptr adc
  = (0, Bme280.decode_raw (map (fun k => mem (0xF7 + Z.of_nat k)) (seq 0 8)), 0xFF).
Proof. reflexivity. Qed.

Lemma read_raw_data_range_witness :
  let '(adc_T, adc_P, adc_H) :=
    snd (fst (Bme280.read_raw_data (reg_dev (fun _ => Byte.xff)) 0 (0, 0, 0))) in
  0 <= adc_T < 2 ^ 20 /\ 0 <= adc_P < 2 ^ 20 /\ 0 <= adc_H < 2 ^ 16.
Proof.
  apply (read_raw_data_range (reg_dev (fun _ => Byte.xff)) 0 (0, 0, 0)).
  reflexivity.
Defined.

(** X6. If the transfer of the sample block fails or comes back short,
    [read_raw_data] returns -1 and the three out-parameters hold what
    they held: none has been written. *)
Theorem read_raw_data_atomic {bus} (dev : i2c_dev bus) fd adc :
  delivers dev fd REG_PRESS_MSB 8 = false ->
  fst (fst (Bme280.read_raw_data dev fd adc)) = -1 /\
  snd (fst (Bme280.read_raw_data dev fd adc)) = adc.
Proof.
  intros D. unfold Bme280.read_raw_data. cbv zeta.
  pose proof (i2c_read_regs_status dev fd REG_PRESS_MSB (uninit 8) 8) as S.
  rewrite D in S.
  destruct (Bme280.i2c_read_regs dev fd REG_PRESS_MSB (uninit 8) 8) as [[r data] fd1].
  cbn [fst snd] in *. subst r. cbn. auto.
Qed.

Lemma read_raw_data_atomic_witness :
  fst (fst (Bme280.read_raw_data flaky_dev 0%nat (1, 2, 3))) = -1 /\
  snd (fst (Bme280.read_raw_data flaky_dev 0%nat (1, 2, 3))) = (1, 2, 3).
Proof.
  apply (read_raw_data_atomic flaky_dev 0%nat (1, 2, 3)). reflexivity.
Defined.

Lemma land_f0 (b : byte) : Z.land (byte.unsigned b) 240 = byte.unsigned b / 16 * 16.
Proof. destruct b; reflexivity. Qed.

Lemma of_Z_low z b : 0 <= b < 256 -> byte.of_Z (z * 256 + b) = byte.of_Z b.
Proof.
  intros Hb. apply byte.unsigned_inj. rewrite !byte.unsigned_of_Z. unfold byte.wrap.
  change (2 ^ 8) with 256. rewrite Z.add_comm, Z.mod_add by lia. reflexivity.
Qed.

(** X7. The sample block is recovered from the decoded triple, up to the
    low nibbles of the two xlsb bytes (offsets 2 and 5), which the decoder
    drops: encoding what was decoded gives the eight bytes back with those
    two nibbles clear. *)
Theorem decode_raw_roundtrip data :
  encode_raw (Bme280.decode_raw data)
  = [nth 0 data Byte.x00; nth 1 data Byte.x00; byte.and (nth 2 data Byte.x00) Byte.xf0;
     nth 3 data Byte.x00; nth 4 data Byte.x00; byte.and (nth 5 data Byte.x00) Byte.xf0;
     nth 6 data Byte.x00; nth 7 data Byte.x00].
Proof.
  rewrite decode_raw_value. unfold encode_raw.
  pose proof (at_range data 0). pose proof (at_range data 1).
  pose proof (at_range data 2). pose proof (at_range data 3).
  pose proof (at_range data 4). pose proof (at_range data 5).
  pose proof (at_range data 6). pose proof (at_range data 7).
  assert (N2 : 0 <= at_ data 2 / 16 < 16).
  { split; [apply Z.div_pos; lia|apply Z.div_lt_upper_bound; lia]. }
  assert (N5 : 0 <= at_ data 5 / 16 < 16).
  { split; [apply Z.div_pos; lia|apply Z.div_lt_upper_bound; lia]. }
  assert (Q : forall b0 b1 n, 0 <= b1 < 256 -> 0 <= n < 16 ->
              (b0 * 4096 + b1 * 16 + n) / 4096 = b0 /\
              (b0 * 4096 + b1 * 16 + n) / 16 = b0 * 256 + b1 /\
              (b0 * 4096 + b1 * 16 + n) mod 16 = n).
  { intros b0 b1 n Hb1 Hn. repeat split.
    - symmetry. apply Z.div_unique with (b1 * 16 + n); lia.
    - symmetry. apply Z.div_unique with n; lia.
    - symmetry. apply Z.mod_unique with (b0 * 256 + b1); lia. }
  destruct (Q (at_ data 0) (at_ data 1) _ ltac:(lia) N2) as (P1 & P2 & P3).
  destruct (Q (at_ data 3) (at_ data 4) _ ltac:(lia) N5) as (T1 & T2 & T3).
  rewrite P1, P2, P3, T1, T2, T3.
  replace ((at_ data 6 * 256 + at_ data 7) / 256) with (at_ data 6)
    by (apply Z.div_unique with (at_ data 7); lia).
  rewrite !of_Z_low by lia.
  unfold byte.and. change (byte.unsigned Byte.xf0) with 240.
  unfold at_ in *. rewrite !land_f0, !byte.of_Z_unsigned. reflexivity.
Qed.


(** *** The transfers a routine makes *)

Lemma paired_no_read_head l len res : paired (X_read len res :: l) = false.
Proof. reflexivity. Qed.

Lemma paired_app l1 : forall l2,
  paired l1 = true -> paired l2 = true -> paired (l1 ++ l2) = true.
Proof.
  induction l1 as [l1 IH] using (induction_ltof1 _ (@length xfer)); unfold ltof in IH.
  intros l2 H1 H2. destruct l1 as [|[bs w|len res] rest]; [exact H2| |discriminate H1].
  destruct rest as [|[bs' w'|len' res'] rest'].
  - cbn [app paired]. destruct l2 as [|[bs2 w2|len2 res2] l2']; [reflexivity|exact H2|discriminate H2].
  - change (paired (X_write bs w :: (X_write bs' w' :: rest') ++ l2) = true).
    cbn [paired app] in *. apply (IH (X_write bs' w' :: rest')); [cbn; lia|exact H1|exact H2].
  - cbn [paired app] in *. apply andb_true_iff in H1 as [H1 H3]. rewrite H1. cbn [andb].
    apply (IH rest'); [cbn; lia|exact H3|exact H2].
Qed.

Lemma follows_app_full l1 l2 S1 S2 :
  follows l1 S1 -> length l1 = length S1 -> follows l2 S2 ->
  follows (l1 ++ l2) (S1 ++ S2).
Proof.
  unfold follows. intros F1 L1 F2.
  rewrite map_app, length_app, F1, F2, L1.
  rewrite firstn_all, firstn_app_2. reflexivity.
Qed.

Lemma follows_weaken l S1 S2 :
  follows l S1 -> (length l <= length S1)%nat -> follows l (S1 ++ S2).
Proof.
  unfold follows. intros F L. rewrite F.
  rewrite firstn_app. replace (length l - length S1)%nat with 0%nat by lia.
  cbn [firstn]. now rewrite app_nil_r.
Qed.

Lemma follows_length l S : follows l S -> (length l <= length S)%nat.
Proof.
  unfold follows. intros F. apply (f_equal (@length _)) in F.
  rewrite length_map, length_firstn in F. lia.
Qed.

Lemma follows_In l S : follows l S -> Forall (fun x => In (shape x) S) l.
Proof.
  unfold follows. intros F. apply Forall_forall. intros x Hx.
  apply (in_map shape) in Hx. rewrite F in Hx.
  revert Hx. generalize (length l). intros n. clear F. revert S.
  induction n as [|n IH]; intros [|s S]; cbn [firstn]; intros []; [left; assumption|].
  right. apply IH. assumption.
Qed.

Lemma forallb_removelast {A} (f : A -> bool) l :
  forallb f l = true -> forallb f (removelast l) = true.
Proof.
  induction l as [|a [|b l'] IH]; [reflexivity|reflexivity|].
  intros Q. cbn [forallb] in Q. apply andb_true_iff in Q as [Qa Qb].
  change (removelast (a :: b :: l')) with (a :: removelast (b :: l')).
  cbn [forallb]. rewrite Qa. exact (IH Qb).
Qed.

Lemma existsb_removelast {A} (f : A -> bool) l :
  existsb f l = false -> existsb f (removelast l) = false.
Proof.
  induction l as [|a [|b l'] IH]; [reflexivity|reflexivity|].
  intros Q. cbn [existsb] in Q. apply orb_false_iff in Q as [Qa Qb].
  change (removelast (a :: b :: l')) with (a :: removelast (b :: l')).
  cbn [existsb]. rewrite Qa. exact (IH Qb).
Qed.

Lemma runs_app S1 S2 l1 l2 ok :
  runs S1 l1 true -> runs S2 l2 ok -> runs (S1 ++ S2) (l1 ++ l2) ok.
Proof.
  intros (F1 & N1 & A1 & O1) (F2 & N2 & A2 & O2).
  destruct (proj1 O1 eq_refl) as [L1 K1].
  split; [apply follows_app_full; assumption|].
  split; [rewrite length_app; lia|].
  split.
  { rewrite removelast_app by (intros ->; cbn in N2; lia).
    rewrite forallb_app, K1, A2. reflexivity. }
  rewrite !length_app, forallb_app, K1, L1. cbn [andb]. rewrite O2.
  split; intros [L K]; (split; [lia|exact K]).
Qed.

Lemma runs_stop S1 S2 l1 :
  runs S1 l1 false -> S2 <> [] -> runs (S1 ++ S2) l1 false.
Proof.
  intros (F1 & N1 & A1 & O1) NE.
  pose proof (follows_length _ _ F1) as L1.
  split; [apply follows_weaken; assumption|].
  split; [assumption|]. split; [assumption|].
  split; [discriminate|]. intros [L K]. rewrite length_app in L.
  destruct S2 as [|s S2]; [contradiction|]. cbn [length] in L. lia.
Qed.

Lemma segment_nil V : segment V 0 [].
Proof. repeat split; auto. Qed.

Lemma segment_app V k1 k2 l1 l2 :
  segment V k1 l1 -> segment V k2 l2 -> segment V (k1 + k2) (l1 ++ l2).
Proof.
  intros (P1 & L1 & F1) (P2 & L2 & F2). split; [apply paired_app; assumption|].
  split; [rewrite length_app; lia|]. apply Forall_app. split; assumption.
Qed.

Lemma segment_weaken V V' k k' l :
  incl V V' -> (k <= k')%nat -> segment V k l -> segment V' k' l.
Proof.
  intros I K (P & L & F). split; [assumption|]. split; [lia|].
  revert F. apply Forall_impl. intros x. apply I.
Qed.

Lemma follows_segment l S : paired l = true -> follows l S -> segment S (length S) l.
Proof.
  intros P F. split; [assumption|]. split; [apply follows_length; assumption|].
  apply follows_In. assumption.
Qed.

Lemma read_count_full len (bs : list byte) :
  (Z.of_nat (length (firstn len bs)) =? Z.of_nat len) = (len <=? length bs)%nat.
Proof.
  rewrite length_firstn.
  destruct (Nat.leb_spec len (length bs)).
  - rewrite Nat.min_l by lia. apply Z.eqb_refl.
  - rewrite Nat.min_r by lia. apply Z.eqb_neq. lia.
Qed.

Section Traced.
Context {bus : Type} (dev : i2c_dev bus).

Lemma i2c_write_reg_traced st reg val :
  let '(r, st') := Bme280.i2c_write_reg (traced dev) st reg val in
  Bme280.i2c_write_reg dev (fst st) reg val = (r, fst st') /\
  (r = 0 \/ r = -1) /\
  exists l, snd st' = snd st ++ l /\ paired l = true /\
            runs [inl [reg; val]] l (r =? 0).
Proof.
  unfold Bme280.i2c_write_reg. cbv zeta. cbn [traced dev_write].
  destruct (dev_write dev (fst st) [reg; val]) as [w s1]. cbn [fst snd].
  destruct (Z.eqb_spec w 2) as [->|N]; cbn [negb fst snd];
    (split; [reflexivity|]); (split; [auto|]);
    eexists; (split; [reflexivity|]); (split; [reflexivity|]);
    (split; [reflexivity|]); (split; [cbn; lia|]); (split; [reflexivity|]).
  - cbn. tauto.
  - cbn [forallb acked length Z.of_nat Pos.of_succ_nat Pos.succ andb Z.eqb].
    split; [discriminate|]. intros [_ K]. rewrite andb_true_r in K.
    apply Z.eqb_eq in K. contradiction.
Qed.

Lemma i2c_read_regs_traced st reg buf len :
  let '(r, buf', st') := Bme280.i2c_read_regs (traced dev) st reg buf len in
  Bme280.i2c_read_regs dev (fst st) reg buf len = (r, buf', fst st') /\
  (r = 0 \/ r = -1) /\
  exists l, snd st' = snd st ++ l /\ paired l = true /\
            runs [inl [reg]; inr len] l (r =? 0).
Proof.
  unfold Bme280.i2c_read_regs, sys_read. cbn [traced dev_write dev_read].
  destruct (dev_write dev (fst st) [reg]) as [w s1]. cbn [fst snd].
  destruct (Z.eqb_spec w 1) as [->|N]; cbn [negb fst snd].
  - destruct (dev_read dev s1 len) as [[bs|] s2]; cbn [fst snd].
    + split; [reflexivity|]. split.
      { destruct (_ =? _); auto. }
      exists [X_write [reg] 1; X_read len (Some bs)].
      split; [rewrite <- app_assoc; reflexivity|]. split; [reflexivity|].
      split; [reflexivity|]. split; [cbn; lia|]. split; [reflexivity|].
      rewrite read_count_full. cbn [forallb acked length Z.of_nat Pos.of_succ_nat Z.eqb Pos.eqb andb].
      rewrite andb_true_r.
      destruct (len <=? length bs)%nat; cbn [Z.eqb]; split; auto; try discriminate.
      intros [_ K]. discriminate K.
    + split; [reflexivity|]. split.
      { destruct (_ =? _); auto. }
      exists [X_write [reg] 1; X_read len None].
      split; [rewrite <- app_assoc; reflexivity|]. split; [reflexivity|].
      split; [reflexivity|]. split; [cbn; lia|]. split; [reflexivity|].
      destruct (Z.eqb_spec (-1) (Z.of_nat len)) as [E|_]; [lia|].
      cbn. split; [discriminate|]. intros [_ K]. discriminate K.
  - split; [reflexivity|]. split; [auto|].
    exists [X_write [reg] w].
    split; [reflexivity|]. split; [reflexivity|].
    split; [reflexivity|]. split; [cbn; lia|]. split; [reflexivity|].
    cbn. split; [discriminate|]. intros [K _]. discriminate K.
Qed.

Lemma i2c_read_reg_traced st reg val :
  let '(r, v, st') := Bme280.i2c_read_reg (traced dev) st reg val in
  Bme280.i2c_read_reg dev (fst st) reg val = (r, v, fst st') /\
  (r = 0 \/ r = -1) /\
  exists l, snd st' = snd st ++ l /\ paired l = true /\
            runs [inl [reg]; inr 1%nat] l (r =? 0) /\
            (r = 0 -> exists bs, l = [X_write [reg] 1; X_read 1 (Some (v :: bs))]) /\
            (r = -1 -> existsb saw_ready l = false).
Proof.
  rewrite !i2c_read_reg_cases. cbn [traced dev_write dev_read].
  destruct (dev_write dev (fst st) [reg]) as [w s1]. cbn [fst snd].
  destruct (Z.eqb_spec w 1) as [->|N]; cbn [negb fst snd].
  - destruct (dev_read dev s1 1) as [[[|b bs]|] s2]; cbn [fst snd];
      (split; [reflexivity|]); (split; [auto|]).
    + exists [X_write [reg] 1; X_read 1 (Some [])].
      split; [rewrite <- app_assoc; reflexivity|]. split; [reflexivity|].
      split; [|split; [discriminate|reflexivity]].
      split; [reflexivity|]. split; [cbn; lia|]. split; [reflexivity|].
      cbn. split; [discriminate|]. intros [_ K]. discriminate K.
    + exists [X_write [reg] 1; X_read 1 (Some (b :: bs))].
      split; [rewrite <- app_assoc; reflexivity|]. split; [reflexivity|].
      split; [|split; [intros _; exists bs; reflexivity|discriminate]].
      split; [reflexivity|]. split; [cbn; lia|]. split; [reflexivity|].
      cbn. tauto.
    + exists [X_write [reg] 1; X_read 1 None].
      split; [rewrite <- app_assoc; reflexivity|]. split; [reflexivity|].
      split; [|split; [discriminate|reflexivity]].
      split; [reflexivity|]. split; [cbn; lia|]. split; [reflexivity|].
      cbn. split; [discriminate|]. intros [_ K]. discriminate K.
  - split; [reflexivity|]. split; [auto|].
    exists [X_write [reg] w].
    split; [reflexivity|]. split; [reflexivity|].
    split; [|split; [discriminate|reflexivity]].
    split; [reflexivity|]. split; [cbn; lia|]. split; [reflexivity|].
    cbn. split; [discriminate|]. intros [K _]. discriminate K.
Qed.

Lemma configure_traced st :
  let '(r, st') := Bme280.configure_bme280 (traced dev) st in
  Bme280.configure_bme280 dev (fst st) = (r, fst st') /\
  (r = 0 \/ r = -1) /\
  exists l, snd st' = snd st ++ l /\ paired l = true /\
            runs config_sequence l (r =? 0).
Proof.
  unfold Bme280.configure_bme280.
  pose proof (i2c_write_reg_traced st REG_CTRL_HUM Byte.x01) as H1.
  destruct (Bme280.i2c_write_reg (traced dev) st REG_CTRL_HUM Byte.x01) as [r1 st1].
  destruct H1 as (E1 & R1 & l1 & L1 & P1 & U1). rewrite E1.
  destruct R1 as [-> | ->]; cbn [Z.ltb Z.compare].
  2:{ split; [reflexivity|]. split; [auto|]. exists l1.
      split; [exact L1|]. split; [exact P1|].
      apply (runs_stop [_] [_; _] l1 U1). discriminate. }
  pose proof (i2c_write_reg_traced st1 REG_CTRL_MEAS Byte.x27) as H2.
  destruct (Bme280.i2c_write_reg (traced dev) st1 REG_CTRL_MEAS Byte.x27) as [r2 st2].
  destruct H2 as (E2 & R2 & l2 & L2 & P2 & U2). rewrite E2.
  destruct R2 as [-> | ->]; cbn [Z.ltb Z.compare].
  2:{ split; [reflexivity|]. split; [auto|]. exists (l1 ++ l2).
      split; [rewrite L2, L1, <- app_assoc; reflexivity|].
      split; [apply paired_app; assumption|].
      apply (runs_app [_] [_; _] l1 l2 _ U1).
      apply (runs_stop [_] [_] l2 U2). discriminate. }
  pose proof (i2c_write_reg_traced st2 REG_CONFIG Byte.x80) as H3.
  destruct (Bme280.i2c_write_reg (traced dev) st2 REG_CONFIG Byte.x80) as [r3 st3].
  destruct H3 as (E3 & R3 & l3 & L3 & P3 & U3). rewrite E3.
  assert (U : runs config_sequence (l1 ++ l2 ++ l3) (r3 =? 0)).
  { apply (runs_app [_] [_; _] l1 (l2 ++ l3) _ U1).
    apply (runs_app [_] [_] l2 l3 _ U2). exact U3. }
  assert (P : paired (l1 ++ l2 ++ l3) = true).
  { apply paired_app; [assumption|]. apply paired_app; assumption. }
  destruct R3 as [-> | ->]; cbn [Z.ltb Z.compare];
    (split; [reflexivity|]); (split; [auto|]); exists (l1 ++ l2 ++ l3);
    (split; [rewrite L3, L2, L1, <- !app_assoc; reflexivity|]);
    (split; [exact P|exact U]).
Qed.

Lemma read_calibration_traced st c :
  let '(r, c', st') := Bme280.read_calibration (traced dev) st c in
  Bme280.read_calibration dev (fst st) c = (r, c', fst st') /\
  (r = 0 \/ r = -1) /\
  exists l, snd st' = snd st ++ l /\ paired l = true /\
            runs calibration_sequence l (r =? 0).
Proof.
  unfold Bme280.read_calibration. cbv zeta.
  pose proof (i2c_read_regs_traced st CALIB00 (uninit 26) 26) as H1.
  destruct (Bme280.i2c_read_regs (traced dev) st CALIB00 (uninit 26) 26) as [[r1 b1] st1].
  destruct H1 as (E1 & R1 & l1 & L1 & P1 & U1). rewrite E1.
  destruct R1 as [-> | ->]; cbn [Z.ltb Z.compare].
  2:{ split; [reflexivity|]. split; [auto|]. exists l1.
      split; [exact L1|]. split; [exact P1|].
      apply (runs_stop [_; _] [_; _] l1 U1). discriminate. }
  pose proof (i2c_read_regs_traced st1 CALIB26 (uninit 7) 7) as H2.
  destruct (Bme280.i2c_read_regs (traced dev) st1 CALIB26 (uninit 7) 7) as [[r2 b2] st2].
  destruct H2 as (E2 & R2 & l2 & L2 & P2 & U2). rewrite E2.
  pose proof (runs_app [_; _] [_; _] l1 l2 _ U1 U2) as U.
  destruct R2 as [-> | ->]; cbn [Z.ltb Z.compare];
    (split; [reflexivity|]); (split; [auto|]); exists (l1 ++ l2);
    (split; [rewrite L2, L1, <- app_assoc; reflexivity|]);
    (split; [apply paired_app; assumption|exact U]).
Qed.

Lemma read_raw_data_traced st adc :
  let '(r, adc', st') := Bme280.read_raw_data (traced dev) st adc in
  Bme280.read_raw_data dev (fst st) adc = (r, adc', fst st') /\
  (r = 0 \/ r = -1) /\
  exists l, snd st' = snd st ++ l /\ paired l = true /\
            runs [inl [REG_PRESS_MSB]; inr 8%nat] l (r =? 0).
Proof.
  unfold Bme280.read_raw_data. cbv zeta.
  pose proof (i2c_read_regs_traced st REG_PRESS_MSB (uninit 8) 8) as H1.
  destruct (Bme280.i2c_read_regs (traced dev) st REG_PRESS_MSB (uninit 8) 8) as [[r1 b1] st1].
  destruct H1 as (E1 & R1 & l1 & L1 & P1 & U1). rewrite E1.
  destruct R1 as [-> | ->]; cbn [Z.ltb Z.compare];
    (split; [reflexivity|]); (split; [auto|]); exists l1; auto.
Qed.

Lemma poll_status_traced n : forall st,
  let '(acts, st') := Bme280.poll_status (traced dev) n st in
  Bme280.poll_status dev n (fst st) = (acts, fst st') /\
  (length acts <= n)%nat /\
  exists l, snd st' = snd st ++ l /\ paired l = true /\
            (length l <= 2 * n)%nat /\
            Forall (fun x => In (shape x) [inl [REG_STATUS]; inr 1%nat]) l /\
            existsb saw_ready (removelast l) = false /\
            existsb saw_ready l = (length acts <? n)%nat.
Proof.
  induction n as [|n IH]; intros st.
  - cbn [Bme280.poll_status]. split; [reflexivity|].
    split; [cbn; lia|]. exists []. rewrite app_nil_r. cbn. repeat split; auto.
  - cbn [Bme280.poll_status]. cbv zeta.
    pose proof (i2c_read_reg_traced st REG_STATUS Byte.x00) as H1.
    destruct (Bme280.i2c_read_reg (traced dev) st REG_STATUS Byte.x00) as [[r v] st1].
    destruct H1 as (E1 & R1 & l1 & L1 & P1 & (F1 & _) & Z1 & B1). rewrite E1.
    assert (Hl1 : (length l1 <= 2)%nat) by (apply (follows_length _ _ F1)).
    destruct ((r =? 0) && (Z.land (byte.unsigned v) 8 =? 0)) eqn:Stop.
    + apply andb_true_iff in Stop as [Hr Hv]. apply Z.eqb_eq in Hr.
      destruct (Z1 Hr) as (bs & ->).
      split; [reflexivity|]. split; [cbn; lia|].
      exists [X_write [REG_STATUS] 1; X_read 1 (Some (v :: bs))].
      split; [exact L1|]. split; [reflexivity|]. split; [cbn; lia|].
      split; [apply follows_In; exact F1|].
      split; [reflexivity|]. cbn. rewrite Hv. reflexivity.
    + assert (Q : existsb saw_ready l1 = false).
      { destruct R1 as [-> | Hm]; [|exact (B1 Hm)].
        destruct (Z1 eq_refl) as (bs & ->). cbn in Stop |- *. now rewrite Stop. }
      specialize (IH st1).
      destruct (Bme280.poll_status (traced dev) n st1) as [acts st2].
      destruct IH as (E2 & N2 & l2 & L2 & P2 & K2 & V2 & Q2 & S2). rewrite E2.
      split; [reflexivity|].
      split; [cbn; lia|].
      exists (l1 ++ l2). split; [rewrite L2, L1, <- app_assoc; reflexivity|].
      split; [apply paired_app; assumption|].
      split; [rewrite length_app; lia|].
      split; [apply Forall_app; split; [apply follows_In; exact F1|exact V2]|].
      split.
      * destruct l2 as [|x2 l2'].
        { rewrite app_nil_r. apply existsb_removelast. exact Q. }
        rewrite removelast_app by discriminate.
        rewrite existsb_app, Q, Q2. reflexivity.
      * rewrite existsb_app, Q, S2. reflexivity.
Qed.

End Traced.


(** *** What the loads leave of the locals they fill *)

Lemma i2c_read_regs_0_or_m1 {bus} (dev : i2c_dev bus) fd reg buf len :
  fst (fst (Bme280.i2c_read_regs dev fd reg buf len)) = 0 \/
  fst (fst (Bme280.i2c_read_regs dev fd reg buf len)) = -1.
Proof.
  rewrite i2c_read_regs_status. destruct (delivers dev fd reg len); auto.
Qed.

Lemma read_calibration_cases {bus} (dev : i2c_dev bus) fd :
  (exists fd', forall c, Bme280.read_calibration dev fd c = (-1, c, fd')) \/
  (exists buf1 buf2 fd', forall c,
      Bme280.read_calibration dev fd c
      = (0, Bme280.decode_calibration buf1 buf2 c, fd')).
Proof.
  unfold Bme280.read_calibration. cbv zeta.
  pose proof (i2c_read_regs_0_or_m1 dev fd CALIB00 (uninit 26) 26) as R1.
  destruct (Bme280.i2c_read_regs dev fd CALIB00 (uninit 26) 26) as [[r1 b1] fd1].
  cbn [fst] in R1. destruct R1 as [-> | ->]; cbn [Z.ltb Z.compare].
  2:{ left. exists fd1. reflexivity. }
  pose proof (i2c_read_regs_0_or_m1 dev fd1 CALIB26 (uninit 7) 7) as R2.
  destruct (Bme280.i2c_read_regs dev fd1 CALIB26 (uninit 7) 7) as [[r2 b2] fd2].
  cbn [fst] in R2. destruct R2 as [-> | ->]; cbn [Z.ltb Z.compare].
  - right. exists b1, b2, fd2. reflexivity.
  - left. exists fd2. reflexivity.
Qed.

Lemma read_raw_data_cases {bus} (dev : i2c_dev bus) fd :
  (exists fd', forall adc, Bme280.read_raw_data dev fd adc = (-1, adc, fd')) \/
  (exists data fd', forall adc,
      Bme280.read_raw_data dev fd adc = (0, Bme280.decode_raw data, fd')).
Proof.
  unfold Bme280.read_raw_data. cbv zeta.
  pose proof (i2c_read_regs_0_or_m1 dev fd REG_PRESS_MSB (uninit 8) 8) as R1.
  destruct (Bme280.i2c_read_regs dev fd REG_PRESS_MSB (uninit 8) 8) as [[r1 b1] fd1].
  cbn [fst] in R1. destruct R1 as [-> | ->]; cbn [Z.ltb Z.compare].
  - right. exists b1, fd1. reflexivity.
  - left. exists fd1. reflexivity.
Qed.

Lemma compensate_T_fixed_fresh adc_T buf1 buf2 c c' :
  Bme280.compensate_T_fixed adc_T (Bme280.decode_calibration buf1 buf2 c)
  = Bme280.compensate_T_fixed adc_T (Bme280.decode_calibration buf1 buf2 c').
Proof. reflexivity. Qed.

Lemma compensate_T_fresh adc_T buf1 buf2 c c' :
  Bme280.compensate_T adc_T (Bme280.decode_calibration buf1 buf2 c)
  = Bme280.compensate_T adc_T (Bme280.decode_calibration buf1 buf2 c').
Proof.
  unfold Bme280.compensate_T. rewrite (compensate_T_fixed_fresh adc_T buf1 buf2 c c').
  reflexivity.
Qed.

(** X11. [main] passes [read_calibration] an uninitialised struct and
    [read_raw_data] three uninitialised integers, and [t_fine] is a field
    the loader does not write.  No run depends on what these locals held:
    each is written before it is read. *)
Theorem main_ignores_uninitialised {bus} (host : i2c_host bus) argv calib adc calib' adc' :
  Bme280.main host argv calib adc = Bme280.main host argv calib' adc'.
Proof.
  unfold Bme280.main. cbv zeta.
  destruct (host_open host _) as [fd0|]; [|reflexivity].
  destruct (host_ioctl host fd0 _) as [r0 fd1].
  destruct (r0 <? 0); [reflexivity|].
  destruct (Bme280.i2c_read_reg (host_dev host) fd1 REG_ID Byte.x00) as [[r1 id] fd2].
  destruct (r1 <? 0); [reflexivity|].
  destruct (read_calibration_cases (host_dev host) fd2)
    as [(fd3 & E) | (buf1 & buf2 & fd3 & E)]; rewrite (E calib), (E calib');
    cbn [Z.ltb Z.compare]; [reflexivity|].
  destruct (Bme280.configure_bme280 (host_dev host) fd3) as [r3 fd4].
  destruct (r3 <? 0); [reflexivity|].
  destruct (Bme280.poll_status (host_dev host) 10 fd4) as [sleeps fd5].
  destruct (read_raw_data_cases (host_dev host) fd5)
    as [(fd6 & R) | (data & fd6 & R)]; rewrite (R adc), (R adc');
    cbn [Z.ltb Z.compare]; [reflexivity|].
  destruct (Bme280.decode_raw data) as [[adc_T adc_P] adc_H].
  rewrite (compensate_T_fresh adc_T buf1 buf2 calib calib'). reflexivity.
Qed.


(** *** How a run of [main] ends *)

Lemma poll_status_sleeps {bus} (dev : i2c_dev bus) n : forall fd,
  Forall (fun a => a = Usleep 20000) (fst (Bme280.poll_status dev n fd)) /\
  (length (fst (Bme280.poll_status dev n fd)) <= n)%nat.
Proof.
  induction n as [|n IH]; intros fd; cbn [Bme280.poll_status]; cbv zeta.
  - split; [constructor|reflexivity].
  - destruct (Bme280.i2c_read_reg dev fd REG_STATUS Byte.x00) as [[r v] fd1].
    destruct ((r =? 0) && (Z.land (byte.unsigned v) 8 =? 0)).
    + split; [constructor|cbn; lia].
    + specialize (IH fd1). destruct (Bme280.poll_status dev n fd1) as [acts fd2].
      cbn [fst length] in *. destruct IH as [A L].
      split; [constructor; [reflexivity|assumption]|lia].
Qed.

Lemma quiet_sleeps l : Forall (fun a => a = Usleep 20000) l -> forallb quiet l = true.
Proof.
  induction 1 as [|a l -> _ IH]; [reflexivity|]. cbn [forallb]. rewrite IH. reflexivity.
Qed.

Lemma main_run {bus} (host : i2c_host bus) argv calib adc :
  exists code out fdo,
    Bme280.main host argv calib adc = Some (code, out, fdo) /\
    ending code out (opened fdo).
Proof.
  unfold Bme280.main. cbv zeta.
  set (path := if (2 <=? length argv)%nat then _ else _).
  set (addr := if (3 <=? length argv)%nat then _ else _).
  destruct (host_open host path) as [fd0|].
  2:{ do 3 eexists. split; [reflexivity|]. apply Ends_unopened. reflexivity. }
  destruct (host_ioctl host fd0 addr) as [r0 fd1].
  destruct (r0 <? 0).
  { do 3 eexists. split; [reflexivity|].
    apply (Ends_failed [] (Failed_to_set_address addr)); reflexivity. }
  destruct (Bme280.i2c_read_reg (host_dev host) fd1 REG_ID Byte.x00) as [[r1 id] fd2].
  destruct (r1 <? 0).
  { do 3 eexists. split; [reflexivity|].
    apply (Ends_failed [] Failed_to_read_chip_id); reflexivity. }
  set (out := if negb (byte.unsigned id =? BME280_CHIP_ID) then _ else _).
  assert (Q0 : forallb quiet out = true).
  { subst out. destruct (negb (byte.unsigned id =? BME280_CHIP_ID)); reflexivity. }
  destruct (read_calibration_cases (host_dev host) fd2)
    as [(fd3 & E) | (buf1 & buf2 & fd3 & E)]; rewrite (E calib);
    cbn [Z.ltb Z.compare].
  { do 3 eexists. split; [reflexivity|]. apply Ends_failed; [exact Q0|reflexivity]. }
  destruct (Bme280.configure_bme280 (host_dev host) fd3) as [r3 fd4].
  destruct (r3 <? 0).
  { do 3 eexists. split; [reflexivity|]. apply Ends_failed; [exact Q0|reflexivity]. }
  pose proof (poll_status_sleeps (host_dev host) 10 fd4) as [SL _].
  destruct (Bme280.poll_status (host_dev host) 10 fd4) as [sleeps fd5].
  cbn [fst] in SL.
  assert (Q1 : forallb quiet ((out ++ [Usleep 100000]) ++ sleeps) = true).
  { rewrite !forallb_app, Q0, (quiet_sleeps _ SL). reflexivity. }
  destruct (Bme280.read_raw_data (host_dev host) fd5 adc) as [[r4 [[adc_T adc_P] adc_H]] fd6].
  destruct (r4 <? 0).
  { do 3 eexists. split; [reflexivity|]. apply Ends_failed; [exact Q1|reflexivity]. }
  pose proof (compensate_P_after_load adc_T adc_P buf1 buf2 calib) as (p0 & PT).
  destruct (Bme280.compensate_T adc_T (Bme280.decode_calibration buf1 buf2 calib))
    as [t c2].
  cbn [snd] in PT.
  destruct (Bme280.compensate_P adc_P c2) as [[p|] c3]; cbn [fst] in PT;
    [|discriminate PT].
  pose proof (compensate_H_percent adc_H c3) as [H0 H100].
  destruct (Bme280.compensate_H adc_H c3) as [h c4]. cbn [fst] in H0, H100.
  do 3 eexists. split; [reflexivity|].
  apply Ends_measured; assumption.
Qed.

Lemma quiet_filters pre :
  forallb quiet pre = true ->
  filter is_close pre = [] /\ filter is_failure pre = [] /\ filter is_measurement pre = [].
Proof.
  induction pre as [|a pre IH]; [auto|]. cbn [forallb filter]. intros H.
  apply andb_true_iff in H as [Q H]. destruct (IH H) as (IC & IF & IM).
  unfold quiet in Q. apply andb_true_iff in Q as [Q QM].
  apply andb_true_iff in Q as [QC QF].
  rewrite negb_true_iff in QC, QF, QM. rewrite QC, QF, QM. auto.
Qed.

Lemma ending_status code out o : ending code out o -> code = 0 \/ code = 1.
Proof. destruct 1; auto. Qed.

(** X9. [main] never divides by zero and ends with status 0 or 1.  When
    [open] failed it closes nothing; otherwise it closes the descriptor
    exactly once, and that is the last thing it does. *)
Theorem main_exit_status {bus} (host : i2c_host bus) argv calib adc :
  match Bme280.main host argv calib adc with
  | None => False
  | Some (code, out, fdo) =>
      (code = 0 \/ code = 1) /\
      match fdo with
      | None => code = 1 /\ filter is_close out = []
      | Some _ => exists pre, out = pre ++ [Close] /\ filter is_close pre = []
      end
  end.
Proof.
  destruct (main_run host argv calib adc) as (code & out & fdo & -> & E).
  split; [exact (ending_status _ _ _ E)|].
  destruct fdo as [fd|]; cbn [opened] in E; inversion E as [m F | pre m Q F | pre t p h Q]; subst.
  - exists (pre ++ [Stderr m]).
    rewrite <- app_assoc. split; [reflexivity|].
    rewrite filter_app. destruct (quiet_filters pre Q) as (-> & _ & _).
    reflexivity.
  - exists (pre ++ [Stdout (Temperature t); Stdout (Pressure p); Stdout (Humidity h)]).
    rewrite <- app_assoc. split; [reflexivity|].
    rewrite filter_app. destruct (quiet_filters pre Q) as (-> & _ & _).
    reflexivity.
  - split; reflexivity.
Qed.

(** X10. What a run of [main] reports.  With status 0 it ends with the
    temperature, pressure and humidity lines, in this order, then the
    close; nothing before them is a failure report or a measurement, and
    the humidity printed lies in [0.0, 100.0].  With any other status it
    reports exactly one failure and no measurement. *)
Theorem main_output_discipline {bus} (host : i2c_host bus) argv calib adc :
  match Bme280.main host argv calib adc with
  | None => False
  | Some (code, out, _) =>
      if code =? 0 then
        exists pre t p h,
          out = pre ++ [Stdout (Temperature t); Stdout (Pressure p);
                        Stdout (Humidity h); Close] /\
          forallb quiet pre = true /\ dle 0 h /\ dle h 100
      else
        length (filter is_failure out) = 1%nat /\ filter is_measurement out = []
  end.
Proof.
  destruct (main_run host argv calib adc) as (code & out & fdo & -> & E).
  destruct E as [m F | pre m Q F | pre t p h Q H0 H100]; cbn [Z.eqb].
  - cbn [filter]. rewrite F. auto.
  - rewrite !filter_app. destruct (quiet_filters pre Q) as (_ & -> & ->).
    cbn [filter app]. rewrite F. split; reflexivity.
  - exists pre, t, p, h. auto.
Qed.


(** *** A run on a register file *)

Lemma i2c_read_reg_reg_dev mem ptr reg val :
  Bme280.i2c_read_reg (reg_dev mem) ptr reg val
  = (0, mem (byte.unsigned reg + 0), byte.unsigned reg + 1).
Proof. reflexivity. Qed.

Lemma configure_bme280_reg_dev mem ptr :
  Bme280.configure_bme280 (reg_dev mem) ptr = (0, ptr).
Proof. reflexivity. Qed.

Lemma poll_status_reg_dev mem n ptr :
  Bme280.poll_status (reg_dev mem) (S n) ptr
  = (if measuring mem then repeat (Usleep 20000) (S n) else [], 0xF4).
Proof.
  revert ptr. induction n as [|n IH]; intros ptr.
  - cbn [Bme280.poll_status]. cbv zeta. rewrite i2c_read_reg_reg_dev.
    unfold measuring. change (byte.unsigned REG_STATUS + 0) with 0xF3.
    rewrite Z.eqb_refl. cbn [andb].
    destruct (Z.land (byte.unsigned (mem 0xF3)) 8 =? 0); reflexivity.
  - change (Bme280.poll_status (reg_dev mem) (S (S n)) ptr)
      with (let '(r, st, fd) := Bme280.i2c_read_reg (reg_dev mem) ptr REG_STATUS Byte.x00 in
            if (r =? 0) && (Z.land (byte.unsigned st) 8 =? 0) then ([], fd)
            else let '(acts, fd) := Bme280.poll_status (reg_dev mem) (S n) fd in
                 (Usleep 20000 :: acts, fd)).
    rewrite i2c_read_reg_reg_dev. rewrite IH.
    unfold measuring. change (byte.unsigned REG_STATUS + 0) with 0xF3.
    rewrite Z.eqb_refl. cbn [andb].
    destruct (Z.land (byte.unsigned (mem 0xF3)) 8 =? 0); reflexivity.
Qed.

(** X12. On a machine where [open] and [ioctl] succeed and the device is a
    register file, [main] ends with status 0 whatever the registers
    hold, the chip id included.  It prints the temperature, pressure and
    humidity computed from registers 0x88..0xA1, 0xE1..0xE7 and
    0xF7..0xFE; when the measuring flag of register 0xF3 stays set it
    sleeps ten times 20 ms and samples all the same. *)
Theorem main_on_register_file mem strtol argv calib adc :
  let path := if (2 <=? length argv)%nat then nth 1 argv String.EmptyString
              else "/dev/i2c-1"%string in
  let addr := if (3 <=? length argv)%nat
              then wrap32 (strtol (nth 2 argv String.EmptyString)) else 0x76 in
  let id := byte.unsigned (mem 0xD0) in
  match pipeline (block mem 0x88 26) (block mem 0xE1 7) (block mem 0xF7 8) calib with
  | (temp_c, Some pres_hpa, hum_rh) =>
      Bme280.main (reg_host mem strtol) argv calib adc
      = Some (0,
              [if id =? 0x60 then Stdout (Detected id addr path)
               else Stderr (Unexpected_chip_id id);
               Usleep 100000]
              ++ (if measuring mem then repeat (Usleep 20000) 10 else [])
              ++ [Stdout (Temperature temp_c); Stdout (Pressure pres_hpa);
                  Stdout (Humidity hum_rh); Close],
              Some 0xFF)
  | (_, None, _) => False
  end.
Proof.
  cbv zeta. unfold Bme280.main, pipeline. cbv zeta.
  cbn [reg_host host_open host_ioctl host_dev host_strtol].
  cbn [Z.ltb Z.compare].
  rewrite i2c_read_reg_reg_dev. cbn [Z.ltb Z.compare].
  rewrite read_calibration_reg_dev. cbn [Z.ltb Z.compare].
  rewrite configure_bme280_reg_dev. cbn [Z.ltb Z.compare].
  rewrite (poll_status_reg_dev mem 9).
  rewrite read_raw_data_reg_dev. cbn [Z.ltb Z.compare].
  fold (block mem 0x88 26). fold (block mem 0xE1 7). fold (block mem 0xF7 8).
  destruct (Bme280.decode_raw (block mem 0xF7 8)) as [[adc_T adc_P] adc_H].
  pose proof (compensate_P_after_load adc_T adc_P (block mem 0x88 26) (block mem 0xE1 7)
                calib) as (p0 & PT).
  destruct (Bme280.compensate_T adc_T _) as [t c2]. cbn [snd] in PT.
  destruct (Bme280.compensate_P adc_P c2) as [[p|] c3]; cbn [fst] in PT;
    [|discriminate PT].
  destruct (Bme280.compensate_H adc_H c3) as [h c4].
  change (byte.unsigned REG_ID + 0) with 0xD0. change BME280_CHIP_ID with 0x60.
  destruct (byte.unsigned (mem 208) =? 96); cbn [negb app];
    destruct (measuring mem); reflexivity.
Qed.


(** *** The bus traffic of a whole run *)

Lemma segment_step V n k (log log' l : list xfer) S :
  segment V n log -> log' = log ++ l -> paired l = true -> follows l S ->
  incl S V -> (length S <= k)%nat -> segment V (n + k) log'.
Proof.
  intros Sg -> P F I K. apply segment_app; [assumption|].
  apply (segment_weaken S V (length S) k); [assumption..|].
  apply follows_segment; assumption.
Qed.

(** X13. The bus traffic of a whole run of [main], on any machine and
    device.  Tracing the device changes nothing else; the log is in bus
    discipline (every read comes right after an acknowledged one-byte
    register select), asks only for the transfers [main_vocabulary]
    lists (so nothing is ever written to the reset register), and holds
    at most 31 transfers. *)
Theorem main_bus_protocol {bus} (host : i2c_host bus) argv calib adc :
  match Bme280.main (traced_host host) argv calib adc with
  | None => False
  | Some (code, out, None) => Bme280.main host argv calib adc = Some (code, out, None)
  | Some (code, out, Some st) =>
      Bme280.main host argv calib adc = Some (code, out, Some (fst st)) /\
      segment main_vocabulary 31 (snd st)
  end.
Proof.
  unfold Bme280.main. cbv zeta.
  cbn [traced_host host_open host_ioctl host_dev host_strtol].
  destruct (host_open host _) as [fd0|]; [|reflexivity].
  cbn [fst snd].
  destruct (host_ioctl host fd0 _) as [r0 fd1].
  pose proof (segment_nil main_vocabulary) as S0.
  destruct (r0 <? 0); [split; [reflexivity|]; revert S0;
                       apply segment_weaken; [apply incl_refl|lia]|].
  (* chip id *)
  pose proof (i2c_read_reg_traced (host_dev host) (fd1, []) REG_ID Byte.x00) as H1.
  destruct (Bme280.i2c_read_reg (traced (host_dev host)) (fd1, []) REG_ID Byte.x00)
    as [[r1 id] st2].
  destruct H1 as (E1 & _ & l1 & L1 & P1 & (F1 & _) & _). cbn [fst snd] in E1, L1. rewrite E1.
  assert (S1 : segment main_vocabulary (0 + 2) (snd st2)).
  { apply (segment_step _ _ _ [] _ l1 _ S0 L1 P1 F1); [intros x Hx; cbn in Hx |- *; intuition|cbn; lia]. }
  destruct (r1 <? 0); [split; [reflexivity|]; revert S1;
                       apply segment_weaken; [apply incl_refl|lia]|].
  (* calibration *)
  pose proof (read_calibration_traced (host_dev host) st2 calib) as H2.
  destruct (Bme280.read_calibration (traced (host_dev host)) st2 calib) as [[r2 c1] st3].
  destruct H2 as (E2 & _ & l2 & L2 & P2 & (F2 & _)). rewrite E2.
  assert (C1 : (r2 <? 0) = false ->
               exists buf1 buf2, c1 = Bme280.decode_calibration buf1 buf2 calib).
  { destruct (read_calibration_cases (host_dev host) (fst st2))
      as [(fd' & E) | (buf1 & buf2 & fd' & E)];
      rewrite (E calib) in E2; injection E2 as <- <- _; [discriminate|].
    intros _. exists buf1, buf2. reflexivity. }
  assert (S2 : segment main_vocabulary (0 + 2 + 4) (snd st3)).
  { apply (segment_step _ _ _ _ _ l2 _ S1 L2 P2 F2); [intros x Hx; cbn in Hx |- *; intuition|cbn; lia]. }
  destruct (r2 <? 0); [split; [reflexivity|]; revert S2;
                       apply segment_weaken; [apply incl_refl|lia]|].
  destruct (C1 eq_refl) as (buf1 & buf2 & ->).
  (* configuration *)
  pose proof (configure_traced (host_dev host) st3) as H3.
  destruct (Bme280.configure_bme280 (traced (host_dev host)) st3) as [r3 st4].
  destruct H3 as (E3 & _ & l3 & L3 & P3 & (F3 & _)). rewrite E3.
  assert (S3 : segment main_vocabulary (0 + 2 + 4 + 3) (snd st4)).
  { apply (segment_step _ _ _ _ _ l3 _ S2 L3 P3 F3); [intros x Hx; cbn in Hx |- *; intuition|cbn; lia]. }
  destruct (r3 <? 0); [split; [reflexivity|]; revert S3;
                       apply segment_weaken; [apply incl_refl|lia]|].
  (* status poll *)
  pose proof (poll_status_traced (host_dev host) 10 st4) as H4.
  destruct (Bme280.poll_status (traced (host_dev host)) 10 st4) as [sleeps st5].
  destruct H4 as (E4 & _ & l4 & L4 & P4 & K4 & V4 & _). rewrite E4.
  assert (S4 : segment main_vocabulary (0 + 2 + 4 + 3 + 20) (snd st5)).
  { rewrite L4. apply segment_app; [assumption|].
    split; [assumption|]. split; [lia|].
    revert V4. apply Forall_impl. intros x Hx. cbn in Hx |- *. intuition. }
  (* samples *)
  pose proof (read_raw_data_traced (host_dev host) st5 adc) as H5.
  destruct (Bme280.read_raw_data (traced (host_dev host)) st5 adc)
    as [[r5 [[adc_T adc_P] adc_H]] st6].
  destruct H5 as (E5 & _ & l5 & L5 & P5 & (F5 & _)). rewrite E5.
  assert (S5 : segment main_vocabulary 31 (snd st6)).
  { apply (segment_step _ _ _ _ _ l5 _ S4 L5 P5 F5); [intros x Hx; cbn in Hx |- *; intuition|cbn; lia]. }
  destruct (r5 <? 0); [split; [reflexivity|exact S5]|].
  pose proof (compensate_P_after_load adc_T adc_P buf1 buf2 calib) as (p0 & PT).
  destruct (Bme280.compensate_T adc_T (Bme280.decode_calibration buf1 buf2 calib))
    as [t c2].
  cbn [snd] in PT.
  destruct (Bme280.compensate_P adc_P c2) as [[p|] c3]; cbn [fst] in PT;
    [|discriminate PT].
  destruct (Bme280.compensate_H adc_H c3) as [h c4].
  split; [reflexivity|exact S5].
Qed.


(** *** The traffic of each routine *)





(** *** The fragments of [main] in [bpbme280.c], and the two files again *)

(** X14. The chip-id check of [main] in [bpbme280.c] never ends the run:
    it goes on with the descriptor as the read left it.  It warns unless
    the read succeeded and gave 0x60; after a failed read the id it
    names is 0x00, the initial value of [chip]. *)
Theorem main_check_chip_warns {bus} (dev : i2c_dev bus) fd :
  let '(r, chip, fd1) := Bme280.i2c_read_reg dev fd REG_ID Byte.x00 in
  Bpbme280.main_check_chip dev fd
  = (if (r =? 0) && (byte.unsigned chip =? 0x60) then []
     else [Stderr (Unexpected_chip_id (if r =? 0 then byte.unsigned chip else 0))],
     fd1).
Proof.
  unfold Bpbme280.main_check_chip. cbv zeta. rewrite i2c_read_reg_agree.
  rewrite i2c_read_reg_cases.
  destruct (dev_write dev fd [REG_ID]) as [w fd1].
  destruct (negb (w =? 1)); [reflexivity|].
  destruct (dev_read dev fd1 1) as [[[|b bs]|] fd2]; try reflexivity.
  cbn [Z.ltb Z.compare Z.eqb orb andb]. change BME280_CHIP_ID with 0x60.
  destruct (byte.unsigned b =? 96); reflexivity.
Qed.

(** X15. The helpers that the two files both carry behave alike on every
    device and input: the register write and read, the block read, the
    calibration load, the configuration, the sample read; and
    [i2c_write_reg] of [bme280.c] is [i2c_write] of the pair. *)
Theorem transport_agree {bus} (dev : i2c_dev bus) fd reg val buf len c adc :
  Bpbme280.i2c_write_reg dev fd reg val = Bme280.i2c_write_reg dev fd reg val /\
  Bpbme280.i2c_read_reg dev fd reg val = Bme280.i2c_read_reg dev fd reg val /\
  Bpbme280.i2c_read_regs dev fd reg buf len = Bme280.i2c_read_regs dev fd reg buf len /\
  Bpbme280.bme280_read_calib dev fd c = Bme280.read_calibration dev fd c /\
  Bpbme280.bme280_configure dev fd = Bme280.configure_bme280 dev fd /\
  Bpbme280.bme280_read_raw dev fd adc = Bme280.read_raw_data dev fd adc /\
  Bme280.i2c_write_reg dev fd reg val = Bme280.i2c_write dev fd [reg; val].
Proof.
  split; [apply i2c_write_reg_agree|].
  split; [apply i2c_read_reg_agree|].
  split; [reflexivity|].
  split; [apply bme280_read_calib_agree|].
  split; [apply configure_agree|].
  split; [apply read_raw_agree|].
  apply i2c_write_reg_is_i2c_write.
Qed.

(** X16. The temperature and the pressure routines of the two files
    return the same value and leave the same struct, for every raw
    value and every struct. *)
Theorem compensation_T_P_agree adc c :
  Bpbme280.bme280_comp_T adc c = Bme280.compensate_T adc c /\
  Bpbme280.bme280_comp_P adc c = Bme280.compensate_P adc c.
Proof. split; [apply comp_T_agree|apply comp_P_agree]. Qed.

(** X17. The humidity either file returns is a percentage: it lies in
    [0.0, 100.0] for every raw value and every struct, the divergent
    copy in [bpbme280.c] included. *)
Theorem humidity_is_a_percentage adc_H c :
  (dle 0 (fst (Bme280.compensate_H adc_H c)) /\
   dle (fst (Bme280.compensate_H adc_H c)) 100) /\
  (dle 0 (fst (Bpbme280.bme280_comp_H adc_H c)) /\
   dle (fst (Bpbme280.bme280_comp_H adc_H c)) 100).
Proof. split; [apply compensate_H_percent|apply bme280_comp_H_percent]. Qed.

(** *** The division in [main], and the 32-bit range *)

(** X18. After a calibration load and a temperature step the
    division of the pressure routine always has a value, in either
    file, whatever bytes the device sent and whatever the raw values
    are.  The [t_fine] that the temperature step stores lies within
    -1179648 and 1179648 (a 32-bit value shifted right by 11 plus one
    shifted right by 14); with it and 16-bit coefficients the dividend
    stays clear of INT64_MIN, so the only division without a value left
    is the one the zero guard avoids. *)
Theorem pressure_defined_after_load buf1 buf2 c adc_T adc_P :
  - 1179648
  <= t_fine (snd (Bme280.compensate_T adc_T (Bme280.decode_calibration buf1 buf2 c)))
  < 1179648 /\
  (exists p,
     fst (Bme280.compensate_P adc_P
            (snd (Bme280.compensate_T adc_T (Bme280.decode_calibration buf1 buf2 c))))
     = Some p) /\
  (exists p,
     fst (Bpbme280.bme280_comp_P adc_P
            (snd (Bpbme280.bme280_comp_T adc_T (Bpbme280.decode_calib buf1 buf2 c))))
     = Some p).
Proof.
  split; [apply compensate_T_t_fine_range|].
  split; [apply compensate_P_after_load|].
  change (Bpbme280.decode_calib buf1 buf2 c)
    with (Bme280.decode_calibration buf1 buf2 c).
  rewrite (comp_T_agree adc_T), comp_P_agree.
  apply compensate_P_after_load.
Qed.

(** X19. For a calibration set as real sensors carry ([T_regular]) and a
    20-bit raw value, no 32-bit intermediate of [compensate_T] wraps: the
    routine computes the datasheet formula over the integers, stores its
    [t_fine], and the temperature stays within -231.00 and 231.00 degC
    (in hundredths). *)
Theorem compensate_T_no_overflow adc_T c :
  T_regular c -> 0 <= adc_T < 2 ^ 20 ->
  Bme280.compensate_T_fixed adc_T c
  = ((t_fine_of c (adc_T / 8) * 5 + 128) / 256,
     set_t_fine c (t_fine_of c (adc_T / 8))) /\
  -23100 <= fst (Bme280.compensate_T_fixed adc_T c) <= 23100.
Proof.
  intros R H. split; [apply compensate_T_fixed_exact|apply compensate_T_fixed_range];
    assumption.
Qed.

Lemma compensate_T_no_overflow_witness :
  Bme280.compensate_T_fixed 519888 sample_calib
  = ((t_fine_of sample_calib (519888 / 8) * 5 + 128) / 256,
     set_t_fine sample_calib (t_fine_of sample_calib (519888 / 8))) /\
  -23100 <= fst (Bme280.compensate_T_fixed 519888 sample_calib) <= 23100.
Proof.
  apply (compensate_T_no_overflow 519888 sample_calib).
  - constructor; cbn; lia.
  - lia.
Defined.

